(** * Droid Provider Bridge: a shallow embedding of the translation and
    rotation core (src/src/index.ts, src/src/codex.ts and the Antigravity
    adapter), with proofs of its specified properties. *)

From Stdlib Require Import String Ascii ZArith Bool.
From Stdlib Require Import List Permutation Lia.
From Stdlib Require Import DecimalString DecimalNat.
From Stdlib Require DecimalFacts.
Import ListNotations.
Set Warnings "-register-all".

Open Scope string_scope.
Open Scope list_scope.
Open Scope Z_scope.

(* ========================================================================= *)
(** ** Canonical message model (types.ts) *)
(* ========================================================================= *)

(** [ChatMessage.role] *)
Inductive role := RSystem | RUser | RAssistant | RTool.

Definition role_eqb (a b : role) : bool :=
  match a, b with
  | RSystem, RSystem | RUser, RUser | RAssistant, RAssistant | RTool, RTool => true
  | _, _ => false
  end.

(** [ContentPart]: [type], optional [text], optional [image_url.url]. *)
Record ContentPart := mkContentPart {
  cp_type : string;
  cp_text : option string;
  cp_image_url : option string
}.

(** [ChatMessage.content]: a string, an array of parts, or null/absent. *)
Inductive msg_content :=
  | CString (s : string)
  | CParts (ps : list ContentPart)
  | CNull.

(** [ToolCall]: [id], [function.name], [function.arguments]. *)
Record ToolCall := mkToolCall {
  tc_id : string;
  tc_name : string;
  tc_arguments : string
}.

Record ChatMessage := mkChatMessage {
  msg_role : role;
  msg_content_of : msg_content;
  msg_name : option string;
  tool_calls : option (list ToolCall);
  tool_call_id : option string
}.

(* ========================================================================= *)
(** ** Model registry (types.ts, [MODELS]) *)
(* ========================================================================= *)

Inductive Provider := Antigravity | Codex.

Definition provider_name (p : Provider) : string :=
  match p with Antigravity => "antigravity" | Codex => "codex" end.

Record ModelConfig := mkModelConfig {
  mc_id : string;
  displayName : string;
  mc_provider : Provider;
  actualModel : string;
  endpoint : string;
  contextLimit : Z;
  outputLimit : Z;
  isThinking : option bool;
  thinkingBudget : option Z;
  thinkingLevel : option string
}.

Definition AG_ENDPOINT : string := "https://daily-cloudcode-pa.sandbox.googleapis.com".
Definition CX_ENDPOINT : string := "https://chatgpt.com/backend-api".

(** The registry, in source order (the later types.ts of the repository). *)
Definition MODELS : list (string * ModelConfig) := [
  ("claude-sonnet-4.5", mkModelConfig "claude-sonnet-4.5" "Claude Sonnet 4.5" Antigravity
     "claude-sonnet-4-5" AG_ENDPOINT 200000 64000 None None None);
  ("claude-sonnet-4.5-thinking-low", mkModelConfig "claude-sonnet-4.5-thinking-low"
     "Claude Sonnet 4.5 Thinking (Low)" Antigravity "claude-sonnet-4-5-thinking" AG_ENDPOINT
     200000 64000 (Some true) (Some 8000) None);
  ("claude-sonnet-4.5-thinking-medium", mkModelConfig "claude-sonnet-4.5-thinking-medium"
     "Claude Sonnet 4.5 Thinking (Medium)" Antigravity "claude-sonnet-4-5-thinking" AG_ENDPOINT
     200000 64000 (Some true) (Some 16000) None);
  ("claude-sonnet-4.5-thinking-high", mkModelConfig "claude-sonnet-4.5-thinking-high"
     "Claude Sonnet 4.5 Thinking (High)" Antigravity "claude-sonnet-4-5-thinking" AG_ENDPOINT
     200000 64000 (Some true) (Some 32000) None);
  ("claude-opus-4.5-thinking-low", mkModelConfig "claude-opus-4.5-thinking-low"
     "Claude Opus 4.5 Thinking (Low)" Antigravity "claude-opus-4-5-thinking" AG_ENDPOINT
     200000 64000 (Some true) (Some 8000) None);
  ("claude-opus-4.5-thinking-medium", mkModelConfig "claude-opus-4.5-thinking-medium"
     "Claude Opus 4.5 Thinking (Medium)" Antigravity "claude-opus-4-5-thinking" AG_ENDPOINT
     200000 64000 (Some true) (Some 16000) None);
  ("claude-opus-4.5-thinking-high", mkModelConfig "claude-opus-4.5-thinking-high"
     "Claude Opus 4.5 Thinking (High)" Antigravity "claude-opus-4-5-thinking" AG_ENDPOINT
     200000 64000 (Some true) (Some 32000) None);
  ("gemini-3-flash", mkModelConfig "gemini-3-flash" "Gemini 3 Flash" Antigravity
     "gemini-3-flash" AG_ENDPOINT 1048576 65536 None None None);
  ("gemini-3-pro-low", mkModelConfig "gemini-3-pro-low" "Gemini 3 Pro (Low)" Antigravity
     "gemini-3-pro-low" AG_ENDPOINT 1048576 65535 (Some true) None (Some "low"));
  ("gemini-3-pro-high", mkModelConfig "gemini-3-pro-high" "Gemini 3 Pro (High)" Antigravity
     "gemini-3-pro-high" AG_ENDPOINT 1048576 65535 (Some true) None (Some "high"));
  ("gpt-5.2", mkModelConfig "gpt-5.2" "GPT-5.2" Codex "gpt-5.2" CX_ENDPOINT
     128000 32000 None None None);
  ("gpt-5.2-thinking", mkModelConfig "gpt-5.2-thinking" "GPT-5.2 Thinking" Codex
     "gpt-5.2-thinking" CX_ENDPOINT 256000 64000 (Some true) None None);
  ("gpt-5.2-codex", mkModelConfig "gpt-5.2-codex" "GPT-5.2 Codex" Codex "gpt-5.2-codex"
     CX_ENDPOINT 256000 64000 None None None)
].

(** The own properties of [MODELS]: the registry entry under [key], when
    [key] is one of the registry's own keys. *)
Fixpoint lookup_model_in (key : string) (ms : list (string * ModelConfig)) : option ModelConfig :=
  match ms with
  | [] => None
  | (k, m) :: rest => if String.eqb k key then Some m else lookup_model_in key rest
  end.

Definition lookup_model (key : string) : option ModelConfig := lookup_model_in key MODELS.

(** The properties a plain object such as [MODELS] inherits from
    [Object.prototype] (with the [__proto__] accessor, which returns the
    prototype itself): each of them is truthy, and none has a [provider]. *)
Definition object_prototype_keys : list string := [
  "constructor"; "__defineGetter__"; "__defineSetter__"; "hasOwnProperty";
  "__lookupGetter__"; "__lookupSetter__"; "isPrototypeOf"; "propertyIsEnumerable";
  "toString"; "valueOf"; "__proto__"; "toLocaleString"].

(** What [MODELS[key]] evaluates to: a registry entry, an inherited member
    of [Object.prototype], or [undefined] ([None]). *)
Inductive ModelEntry :=
  | OwnModel (mc : ModelConfig)
  | InheritedMember.

Definition models_get (key : string) : option ModelEntry :=
  match lookup_model key with
  | Some mc => Some (OwnModel mc)
  | None =>
      if existsb (String.eqb key) object_prototype_keys then Some InheritedMember else None
  end.

(** The pool and adapter [modelConfig.provider] selects: the code tests
    [provider === "antigravity"] and takes the Codex branch otherwise, so an
    inherited member (whose [provider] is [undefined]) goes to Codex. *)
Definition entry_pool (e : ModelEntry) : Provider :=
  match e with OwnModel mc => mc_provider mc | InheritedMember => Codex end.

(** [`${modelConfig.provider}`] *)
Definition entry_provider_label (e : ModelEntry) : string :=
  match e with OwnModel mc => provider_name (mc_provider mc) | InheritedMember => "undefined" end.

(* ========================================================================= *)
(** ** Rotating account pool (index.ts, [getNextAccount] / [rotateAccount]) *)
(* ========================================================================= *)

(** [ProviderAccount]; the core only compares accounts by [id]. *)
Record ProviderAccount := mkAccount {
  acc_id : string;
  acc_email : string
}.

(** The module-level [let] bindings of index.ts. *)
Record PoolState := mkPool {
  antigravityAccounts : list ProviderAccount;
  codexAccounts : list ProviderAccount;
  currentAntigravityIndex : nat;
  currentCodexIndex : nat
}.

Definition accounts_of (p : Provider) (st : PoolState) : list ProviderAccount :=
  match p with Antigravity => antigravityAccounts st | Codex => codexAccounts st end.

Definition index_of (p : Provider) (st : PoolState) : nat :=
  match p with Antigravity => currentAntigravityIndex st | Codex => currentCodexIndex st end.

(** [accounts[index % accounts.length]], or [null] on an empty pool. *)
Definition getNextAccount (p : Provider) (st : PoolState) : option ProviderAccount :=
  match accounts_of p st with
  | [] => None
  | accs => nth_error accs (Nat.modulo (index_of p st) (List.length accs))
  end.

(** [currentXIndex++] *)
Definition bump_index (p : Provider) (st : PoolState) : PoolState :=
  match p with
  | Antigravity => mkPool (antigravityAccounts st) (codexAccounts st)
                     (S (currentAntigravityIndex st)) (currentCodexIndex st)
  | Codex => mkPool (antigravityAccounts st) (codexAccounts st)
               (currentAntigravityIndex st) (S (currentCodexIndex st))
  end.

(** [rotateAccount]: increment the cursor, then return [getNextAccount]. *)
Definition rotateAccount (p : Provider) (st : PoolState) : PoolState * option ProviderAccount :=
  let st' := bump_index p st in (st', getNextAccount p st').

(** [n] successive calls of [rotateAccount], collecting what each returns. *)
Fixpoint rotate_times (n : nat) (p : Provider) (st : PoolState)
  : PoolState * list (option ProviderAccount) :=
  match n with
  | O => (st, [])
  | S n' =>
      let '(st1, a) := rotateAccount p st in
      let '(st2, rest) := rotate_times n' p st1 in
      (st2, a :: rest)
  end.

(* ========================================================================= *)
(** ** Gateway ([handleChatCompletion], [sendJSON], [sendError]) *)
(* ========================================================================= *)

(** [{ error: { message, type: "api_error", code: status } }] *)
Record ErrorBody := mkErrorBody {
  err_message : string;
  err_type : string;
  err_code : Z
}.

(** What the handler writes as the response body: an error object, a
    [chat.completion] JSON object, or a [text/event-stream]. *)
Inductive ResponseBody :=
  | BodyError (e : ErrorBody)
  | BodyCompletion
  | BodyEventStream.

Record HttpResponse := mkHttpResponse {
  http_status : Z;
  http_body : ResponseBody
}.

Definition sendJSON (status : Z) (body : ResponseBody) : HttpResponse :=
  mkHttpResponse status body.

Definition sendError (status : Z) (message : string) : HttpResponse :=
  sendJSON status (BodyError (mkErrorBody message "api_error" status)).

(** [APIRequest] (the fields the core reads). *)
Record APIRequest := mkAPIRequest {
  req_model : string;
  req_messages : list ChatMessage;
  req_stream : option bool;
  max_tokens : option Z;
  temperature : option Z
}.

(** The result of one upstream [fetch] (after an optional token refresh):
    either a [Response] with its status and body text, or a thrown error. *)
Inductive UpstreamResult :=
  | UResponse (status : Z) (text : string)
  | UThrow (error : string).

(** [response.ok] *)
Definition response_ok (status : Z) : bool := (200 <=? status) && (status <=? 299).

Section Gateway.

(** The upstream: the outcome of the [n]-th adapter call of the run
    ([callAntigravity] after the optional token refresh, or [callCodex]),
    made with a given account: a [Response] or the error thrown. *)
Variable upstream : nat -> ProviderAccount -> UpstreamResult.

(** The non-streaming Antigravity path on a 2xx body [text]:
    [JSON.parse(text)] then [parseAntigravityResponse]; [Some e] when one of
    them throws [e] (e.g. a body that is not JSON), [None] when the
    completion is built. *)
Variable ag_body_error : string -> option string.

(** The successful branch: a stream when [req.stream] is truthy; otherwise
    the body text is parsed by the adapter's parser and sent as a JSON
    completion, and a throw of the Antigravity parse lands in the [catch]
    ([sendError(res, 500, `Internal error: ${error}`)]). The Codex parser
    [parseCodexResponse] does not throw. *)
Definition success_response (p : Provider) (req : APIRequest) (text : string) : HttpResponse :=
  match req_stream req with
  | Some true => mkHttpResponse 200 BodyEventStream
  | _ =>
      match p with
      | Antigravity =>
          match ag_body_error text with
          | Some e => sendError 500 (String.append "Internal error: " e)
          | None => sendJSON 200 BodyCompletion
          end
      | Codex => sendJSON 200 BodyCompletion
      end
  end.

(** [handleChatCompletion]. The recursive retry of the source is bounded by
    [fuel] (one unit per invocation); [None] means the fuel ran out, i.e. the
    source would still be recursing. [calls] counts adapter calls made so
    far. Returns the response, the pool state and the new call count. *)
Fixpoint handleChatCompletion (fuel : nat) (req : APIRequest) (st : PoolState) (calls : nat)
  : option (HttpResponse * PoolState * nat) :=
  match fuel with
  | O => None
  | S fuel' =>
    match models_get (req_model req) with
    | None =>
        Some (sendError 400 (String.concat "" ["Unknown model: "; req_model req;
                ". Available: "; String.concat ", " (map fst MODELS)]), st, calls)
    | Some entry =>
      let p := entry_pool entry in
      match getNextAccount p st with
      | None =>
          Some (sendError 503 (String.concat "" ["No "; entry_provider_label entry;
                  " accounts available. Add one with: npm run add-account"]), st, calls)
      | Some account =>
        let calls' := S calls in
        match upstream calls account with
        | UThrow e => Some (sendError 500 (String.append "Internal error: " e), st, calls')
        | UResponse status text =>
          if response_ok status then Some (success_response p req text, st, calls')
          else if status =? 429 then
            let '(st', newAccount) := rotateAccount p st in
            match newAccount with
            | Some na =>
                if negb (String.eqb (acc_id na) (acc_id account))
                then handleChatCompletion fuel' req st' calls'
                else Some (sendError status text, st', calls')
            | None => Some (sendError status text, st', calls')
            end
          else Some (sendError status text, st, calls')
        end
      end
    end
  end.

End Gateway.

(* ========================================================================= *)
(** ** JSON values with JavaScript object semantics *)
(* ========================================================================= *)

(** A JSON value as the adapter sees it after [JSON.parse]. An object
    carries its own properties, in [Object.entries] order, and its
    prototype: [None] for the default one ([Object.prototype], or [null]),
    which holds none of the keys the adapter reads, or [Some o] when the
    object's [__proto__] was set to the object [o]. *)
Inductive json :=
  | JNull
  | JBool (b : bool)
  | JNum (n : Z)
  | JStr (s : string)
  | JArr (xs : list json)
  | JObj (props : list (string * json)) (proto : option json).

(** JavaScript truthiness ([undefined] is [None] where it can occur). *)
Definition js_truthy (j : json) : bool :=
  match j with
  | JNull => false
  | JBool b => b
  | JNum n => negb (n =? 0)
  | JStr s => negb (String.eqb s "")
  | JArr _ | JObj _ _ => true
  end.

Definition js_truthy_opt (j : option json) : bool :=
  match j with Some v => js_truthy v | None => false end.

(** [typeof v === "object"] for a value already known to be truthy. *)
Definition is_js_object (j : json) : bool :=
  match j with JArr _ | JObj _ _ | JNull => true | _ => false end.

Fixpoint get_own (props : list (string * json)) (k : string) : option json :=
  match props with
  | [] => None
  | (k', v) :: rest => if String.eqb k' k then Some v else get_own rest k
  end.

(** [o[k]]: own property first, then the prototype chain. *)
Fixpoint js_get (o : json) (k : string) : option json :=
  match o with
  | JObj props proto =>
      match get_own props k with
      | Some v => Some v
      | None => match proto with Some p => js_get p k | None => None end
      end
  | _ => None
  end.

(** Data-property write: update in place, or append a new key at the end. *)
Fixpoint set_own (props : list (string * json)) (k : string) (v : json) : list (string * json) :=
  match props with
  | [] => [(k, v)]
  | (k', v') :: rest => if String.eqb k' k then (k, v) :: rest else (k', v') :: set_own rest k v
  end.

(** [o[k] = v] on an ordinary object created by [{}]: the key ["__proto__"]
    goes to the inherited [Object.prototype.__proto__] setter, which replaces
    the prototype when [v] is an object or [null] and does nothing otherwise;
    every other key is an own data property. *)
Definition js_set (o : list (string * json) * option json) (k : string) (v : json)
  : list (string * json) * option json :=
  let '(props, proto) := o in
  if String.eqb k "__proto__" then
    match v with
    | JObj _ _ | JArr _ => (props, Some v)
    | JNull => (props, None)
    | _ => (props, proto)
    end
  else (set_own props k v, proto).

(* ========================================================================= *)
(** ** Antigravity adapter: [cleanSchema] *)
(* ========================================================================= *)

Definition UNSUPPORTED_SCHEMA_FIELDS : list string := [
  "definitions"; "$schema"; "$id"; "$ref"; "$defs";
  "exclusiveMinimum"; "exclusiveMaximum";
  "minLength"; "maxLength"; "pattern"; "format";
  "minItems"; "maxItems"; "uniqueItems"; "additionalItems"; "contains";
  "additionalProperties"; "propertyNames"; "minProperties"; "maxProperties";
  "allOf"; "anyOf"; "oneOf"; "not";
  "if"; "then"; "else"; "const";
  "contentMediaType"; "contentEncoding"; "examples"; "default";
  "deprecated"; "readOnly"; "writeOnly"].

(** [key.startsWith("$") || UNSUPPORTED_SCHEMA_FIELDS.has(key)] *)
Definition skipped_key (key : string) : bool :=
  String.prefix "$" key || existsb (String.eqb key) UNSUPPORTED_SCHEMA_FIELDS.

(** [cleanSchema]. Arrays: clean each item and drop the falsy ones. Objects:
    copy each own entry whose key is kept into a fresh [{}] ([result]),
    cleaning object values; then add [type: "object"] when [result.properties]
    is truthy and [result.type] is not. *)
Fixpoint cleanSchema (obj : json) : json :=
  match obj with
  | JArr xs => JArr (filter js_truthy (map cleanSchema xs))
  | JObj props _ =>
      let result :=
        fold_left
          (fun (acc : list (string * json) * option json) (kv : string * json) =>
             let '(key, value) := kv in
             if skipped_key key then acc
             else if js_truthy value && is_js_object value then
               match cleanSchema value with
               | JNull => acc
               | cleaned => js_set acc key cleaned
               end
             else js_set acc key value)
          props ([], None) in
      let result :=
        if js_truthy_opt (js_get (JObj (fst result) (snd result)) "properties")
           && negb (js_truthy_opt (js_get (JObj (fst result) (snd result)) "type"))
        then js_set result "type" (JStr "object")
        else result in
      JObj (fst result) (snd result)
  | _ => obj
  end.

(** The body of [cleanSchema]'s [for] loop over the entries, for a given
    recursive cleaner, and the closing [type] fix-up: [cleanSchema] on an
    object is [schema_result (fold_left (clean_entry cleanSchema) props ([], None))]. *)
Definition clean_entry (clean : json -> json) (acc : list (string * json) * option json)
  (kv : string * json) : list (string * json) * option json :=
  let '(key, value) := kv in
  if skipped_key key then acc
  else if js_truthy value && is_js_object value then
    match clean value with
    | JNull => acc
    | cleaned => js_set acc key cleaned
    end
  else js_set acc key value.

Definition schema_result (result : list (string * json) * option json) : json :=
  let result :=
    if js_truthy_opt (js_get (JObj (fst result) (snd result)) "properties")
       && negb (js_truthy_opt (js_get (JObj (fst result) (snd result)) "type"))
    then js_set result "type" (JStr "object")
    else result in
  JObj (fst result) (snd result).

(** No object of the value has a ["__proto__"] entry. *)
Fixpoint no_proto_key (j : json) : bool :=
  match j with
  | JArr xs => forallb no_proto_key xs
  | JObj props _ =>
      forallb (fun kv => negb (String.eqb (fst kv) "__proto__") && no_proto_key (snd kv)) props
  | _ => true
  end.

(* ========================================================================= *)
(** ** Antigravity adapter: [convertMessages] *)
(* ========================================================================= *)

(** The payload of a function response: [JSON.parse(content)] for string
    content, the content itself otherwise, and [{ result: content }] when
    parsing throws. *)
Inductive ToolPayload :=
  | TPJson (j : json)
  | TPContent (c : msg_content)
  | TPWrapped (c : msg_content).

(** [AntigravityPart]: the adapter only builds parts with one field set. *)
Inductive AntigravityPart :=
  | PText (text : string)
  | PInlineData (mimeType : string) (data : string)
  | PFunctionCall (name : string) (args : json) (id : string)
  | PFunctionResponse (name : string) (id : string) (response : ToolPayload).

Inductive ContentRole := RoleUser | RoleModel.

Record AntigravityContent := mkContent {
  ac_role : ContentRole;
  ac_parts : list AntigravityPart
}.

Definition opt_truthy_str (o : option string) : option string :=
  match o with Some s => if String.eqb s "" then None else Some s | None => None end.

(** [^data:([^;]+);base64,(.+)$] on a URL known to start with ["data:"]:
    the media type runs to the first [;], which must open [;base64,]; the
    data is the rest, non-empty and free of line terminators. *)
Fixpoint split_at_semicolon (s : string) : string * string :=
  match s with
  | EmptyString => (EmptyString, EmptyString)
  | String c rest =>
      if Ascii.eqb c ";" then (EmptyString, s)
      else let '(a, b) := split_at_semicolon rest in (String c a, b)
  end.

Definition has_line_terminator (s : string) : bool :=
  existsb (fun c => Ascii.eqb c (ascii_of_nat 10) || Ascii.eqb c (ascii_of_nat 13))
    (list_ascii_of_string s).

Definition match_data_url (url : string) : option (string * string) :=
  if String.prefix "data:" url then
    let rest := substring 5 (String.length url - 5) url in
    let '(mime, tail) := split_at_semicolon rest in
    if String.prefix ";base64," tail then
      let data := substring 8 (String.length tail - 8) tail in
      if negb (String.eqb mime "") && negb (String.eqb data "") && negb (has_line_terminator data)
      then Some (mime, data) else None
    else None
  else None.

(** One element of a content array. *)
Definition convert_content_part (p : ContentPart) : list AntigravityPart :=
  match String.eqb (cp_type p) "text", opt_truthy_str (cp_text p) with
  | true, Some t => [PText t]
  | _, _ =>
    if String.eqb (cp_type p) "image_url" then
      match cp_image_url p with
      | Some url =>
          if String.prefix "data:" url then
            match match_data_url url with
            | Some (mime, data) => [PInlineData mime data]
            | None => []
            end
          else []
      | None => []
      end
    else []
  end.

(** "Handle content" *)
Definition content_parts (c : msg_content) : list AntigravityPart :=
  match c with
  | CString s => if String.eqb s "" then [] else [PText s]
  | CParts ps => flat_map convert_content_part ps
  | CNull => []
  end.

(** [.filter(p => p.type === "text").map(p => p.text).join("\n") || ""] *)
Definition text_of_parts (ps : list ContentPart) : string :=
  String.concat (String (ascii_of_nat 10) EmptyString)
    (map (fun p => match cp_text p with Some t => t | None => "" end)
         (filter (fun p => String.eqb (cp_type p) "text") ps)).

Definition system_text (c : msg_content) : string :=
  match c with
  | CString s => s
  | CParts ps => text_of_parts ps
  | CNull => ""
  end.

(** [msg.tool_calls?.length] is truthy. *)
Definition nonempty_tool_calls (m : ChatMessage) : list ToolCall :=
  match tool_calls m with Some tcs => tcs | None => [] end.

(** A [Map<string, {name, content}>] as an association list; [set] replaces
    the value of an existing key. *)
Definition ToolResponses := list (string * (string * ToolPayload)).

Fixpoint map_set (m : ToolResponses) (k : string) (v : string * ToolPayload) : ToolResponses :=
  match m with
  | [] => [(k, v)]
  | (k', v') :: rest => if String.eqb k' k then (k, v) :: rest else (k', v') :: map_set rest k v
  end.

Fixpoint map_get (m : ToolResponses) (k : string) : option (string * ToolPayload) :=
  match m with
  | [] => None
  | (k', v) :: rest => if String.eqb k' k then Some v else map_get rest k
  end.

(** The result of the system-instruction walk and the main walk. *)
Record ConvState := mkConvState {
  cs_contents : list AntigravityContent;
  cs_system : option string;
  cs_pending : list AntigravityPart
}.

Section ConvertMessages.

(** [JSON.parse]: [None] when it throws. *)
Variable json_parse : string -> option json.

Definition tool_payload (c : msg_content) : ToolPayload :=
  match c with
  | CString s => match json_parse s with Some j => TPJson j | None => TPWrapped c end
  | _ => TPContent c
  end.

(** "Collect tool responses": one iteration, then the loop. *)
Definition collect_step (acc : ToolResponses) (msg : ChatMessage) : ToolResponses :=
  match msg_role msg, opt_truthy_str (tool_call_id msg) with
  | RTool, Some id =>
      map_set acc id (match opt_truthy_str (msg_name msg) with
                      | Some n => n | None => "unknown" end,
                      tool_payload (msg_content_of msg))
  | _, _ => acc
  end.

Definition collect_tool_responses (messages : list ChatMessage) : ToolResponses :=
  fold_left collect_step messages [].

Definition function_call_part (tc : ToolCall) : AntigravityPart :=
  PFunctionCall (tc_name tc)
    (match json_parse (tc_arguments tc) with Some j => j | None => JObj [] None end)
    (tc_id tc).

Definition function_responses (toolResponses : ToolResponses) (tcs : list ToolCall)
  : list AntigravityPart :=
  flat_map (fun tc => match map_get toolResponses (tc_id tc) with
                      | Some (name, content) => [PFunctionResponse name (tc_id tc) content]
                      | None => []
                      end) tcs.

(** One iteration of the main [for (const msg of messages)] loop. *)
Definition convert_step (toolResponses : ToolResponses) (st : ConvState) (msg : ChatMessage)
  : ConvState :=
  match msg_role msg with
  | RTool => st
  | RSystem =>
      let text := system_text (msg_content_of msg) in
      mkConvState (cs_contents st)
        (Some (match cs_system st with
               | Some t => String.append t (String.append (String (ascii_of_nat 10)
                             (String (ascii_of_nat 10) EmptyString)) text)
               | None => text
               end))
        (cs_pending st)
  | r =>
      let role := match r with RAssistant => RoleModel | _ => RoleUser end in
      let '(contents, pending) :=
        match role, cs_pending st with
        | RoleUser, (_ :: _) as pd => (cs_contents st ++ [mkContent RoleUser pd], [])
        | _, pd => (cs_contents st, pd)
        end in
      let tcs := nonempty_tool_calls msg in
      let parts := content_parts (msg_content_of msg) ++ map function_call_part tcs in
      let pending := pending ++ function_responses toolResponses tcs in
      let contents := match parts with
                      | [] => contents
                      | _ => contents ++ [mkContent role parts]
                      end in
      match r, tcs, pending with
      | RAssistant, _ :: _, _ :: _ => mkConvState (contents ++ [mkContent RoleUser pending])
                                         (cs_system st) []
      | _, _, _ => mkConvState contents (cs_system st) pending
      end
  end.

(** [convertMessages]: contents and the system instruction text. *)
Definition convertMessages (messages : list ChatMessage)
  : list AntigravityContent * option string :=
  let toolResponses := collect_tool_responses messages in
  let st := fold_left (convert_step toolResponses) messages (mkConvState [] None []) in
  match cs_pending st with
  | [] => (cs_contents st, cs_system st)
  | pd => (cs_contents st ++ [mkContent RoleUser pd], cs_system st)
  end.

End ConvertMessages.

(* ========================================================================= *)
(** ** Antigravity adapter: [convertTools] and [callAntigravity] *)
(* ========================================================================= *)

(** [Tool]: [type], [function.name], [function.description],
    [function.parameters]. *)
Record Tool := mkTool {
  tool_type : string;
  fn_name : string;
  fn_description : option string;
  fn_parameters : option json
}.

Record FunctionDeclaration := mkFunctionDeclaration {
  fd_name : string;
  fd_description : option string;
  fd_parameters : option json
}.

Definition convertTools (tools : option (list Tool)) : option (list FunctionDeclaration) :=
  match tools with
  | None | Some [] => None
  | Some ts =>
      let functionDeclarations :=
        map (fun t => mkFunctionDeclaration (fn_name t) (fn_description t)
                        (option_map cleanSchema (fn_parameters t)))
            (filter (fun t => String.eqb (tool_type t) "function") ts) in
      match functionDeclarations with [] => None | _ => Some functionDeclarations end
  end.

(** [thinkingConfig]: [{thinking_budget, include_thoughts: true}] or
    [{thinkingLevel, includeThoughts: true}]. *)
Inductive ThinkingConfig :=
  | ThinkingBudget (thinking_budget : Z)
  | ThinkingLevel (thinkingLevel : string).

Record GenerationConfig := mkGenerationConfig {
  maxOutputTokens : option Z;
  gc_temperature : option Z;
  thinkingConfig : option ThinkingConfig
}.

(** The body of the upstream request (the random [requestId] is left out). *)
Record AntigravityRequest := mkAntigravityRequest {
  ar_project : string;
  ar_model : string;
  ar_contents : list AntigravityContent;
  ar_generationConfig : GenerationConfig;
  ar_systemInstruction : option string;
  ar_tools : option (list FunctionDeclaration);
  ar_toolConfig_mode : option string;
  ar_userAgent : string;
  ar_endpoint : string
}.

(** [ProviderAccount.projectId] is the only account field the body uses. *)
Record CallOptions := mkCallOptions {
  opt_maxTokens : option Z;
  opt_temperature : option Z;
  opt_stream : option bool
}.

(** [String.prototype.includes] *)
Definition string_includes (s sub : string) : bool :=
  match String.index 0 sub s with Some _ => true | None => false end.

(** [messages.some(m => (m.role === "assistant" && m.tool_calls?.length) || m.role === "tool")] *)
Definition hasToolHistory (messages : list ChatMessage) : bool :=
  existsb (fun m => (role_eqb (msg_role m) RAssistant &&
                     negb (Nat.eqb (List.length (nonempty_tool_calls m)) 0))
                    || role_eqb (msg_role m) RTool) messages.

(** The spec's notion of tool history: a [tool] message, or an assistant
    message with a non-empty [tool_calls] list. *)
Definition tool_history_message (m : ChatMessage) : Prop :=
  msg_role m = RTool \/
  (msg_role m = RAssistant /\ exists tc tcs, tool_calls m = Some (tc :: tcs)).

Definition isClaude (model : ModelConfig) : bool := string_includes (actualModel model) "claude".

Definition shouldUseThinking (model : ModelConfig) (messages : list ChatMessage) : bool :=
  match isThinking model with Some true => true | _ => false end &&
  negb (isClaude model && hasToolHistory messages).

Definition ANTIGRAVITY_DEFAULT_PROJECT_ID : string := "anthropic-web-app".

(** The generation config, including the thinking block. *)
Definition generation_config (model : ModelConfig) (messages : list ChatMessage)
  (options : CallOptions) : GenerationConfig :=
  let maxOut := match opt_maxTokens options with
                | Some n => Some n
                | None => Some (outputLimit model)
                end in
  let gc := mkGenerationConfig maxOut (opt_temperature options) None in
  let budget := match thinkingBudget model with
                | Some b => if b =? 0 then None else Some b
                | None => None
                end in
  match shouldUseThinking model messages, budget, opt_truthy_str (thinkingLevel model) with
  | true, Some b, _ =>
      (* [(maxOutputTokens ?? 0) <= thinkingBudget] raises the ceiling *)
      let maxOut' :=
        if match maxOut with Some n => n | None => 0 end <=? b then Some 128000 else maxOut in
      mkGenerationConfig maxOut' (opt_temperature options) (Some (ThinkingBudget b))
  | true, None, Some l =>
      mkGenerationConfig maxOut (opt_temperature options) (Some (ThinkingLevel l))
  | _, _, _ => gc
  end.

Definition callAntigravity (json_parse : string -> option json) (projectId : option string)
  (model : ModelConfig) (messages : list ChatMessage) (tools : option (list Tool))
  (options : CallOptions) : AntigravityRequest :=
  let '(contents, systemInstruction) := convertMessages json_parse messages in
  let convertedTools := convertTools tools in
  mkAntigravityRequest
    (match opt_truthy_str projectId with Some p => p | None => ANTIGRAVITY_DEFAULT_PROJECT_ID end)
    (actualModel model)
    contents
    (generation_config model messages options)
    systemInstruction
    convertedTools
    (match convertedTools with
     | Some _ => if isClaude model then Some "VALIDATED" else None
     | None => None
     end)
    "droid-provider-bridge"
    (if match opt_stream options with Some b => b | None => false end
     then String.append (endpoint model) "/v1internal:streamGenerateContent?alt=sse"
     else String.append (endpoint model) "/v1internal:generateContent").

(* ========================================================================= *)
(** ** Server-sent-event lines *)
(* ========================================================================= *)

Definition is_js_whitespace (c : ascii) : bool :=
  let n := nat_of_ascii c in
  (Nat.eqb n 32 || Nat.eqb n 9 || Nat.eqb n 10 || Nat.eqb n 11 || Nat.eqb n 12 || Nat.eqb n 13)%bool.

Fixpoint trim_start (s : string) : string :=
  match s with
  | EmptyString => EmptyString
  | String c rest => if is_js_whitespace c then trim_start rest else s
  end.

Definition reverse_string (s : string) : string :=
  string_of_list_ascii (rev (list_ascii_of_string s)).

(** [String.prototype.trim] on ASCII text. *)
Definition js_trim (s : string) : string :=
  reverse_string (trim_start (reverse_string (trim_start s))).

(** [s.slice(n)] for [n >= 0]. *)
Definition js_slice (s : string) (n : nat) : string :=
  substring n (String.length s - n) s.

(** [line.startsWith("data: ")] then [line.slice(6).trim()]. *)
Definition sse_data (line : string) : option string :=
  if String.prefix "data: " line then Some (js_trim (js_slice line 6)) else None.

Definition NEWLINE : ascii := ascii_of_nat 10.

(** [s.split("\n")] *)
Fixpoint split_lines (s : string) : list string :=
  match s with
  | EmptyString => [EmptyString]
  | String c rest =>
      if Ascii.eqb c NEWLINE then EmptyString :: split_lines rest
      else match split_lines rest with
           | l :: ls => String c l :: ls
           | [] => [String c EmptyString]
           end
  end.

(** [const lines = buffer.split("\n"); buffer = lines.pop() || ""]:
    the complete lines and the new buffer. *)
Definition take_complete_lines (buffer : string) : list string * string :=
  let lines := split_lines buffer in
  (removelast lines, last lines EmptyString).

(* ========================================================================= *)
(** ** OpenAI-style stream chunks *)
(* ========================================================================= *)

(** [delta.tool_calls[0]]: the upstream id (or [None] when a random
    [call_...] id is generated), the function name and its arguments. *)
Record DeltaToolCall := mkDeltaToolCall {
  dtc_id : option string;
  dtc_name : string;
  dtc_args : json
}.

(** A [chat.completion.chunk] (id, created and model left out): its [delta]
    ([content] and [tool_calls] when present) and [finish_reason]. *)
Record Chunk := mkChunk {
  delta_content : option string;
  delta_tool_call : option DeltaToolCall;
  finish_reason : option string
}.

Definition content_chunk (content : string) : Chunk := mkChunk (Some content) None None.
Definition stop_chunk : Chunk := mkChunk None None (Some "stop").

(** What is written to the client: [data: <chunk>] frames and [data: [DONE]]. *)
Inductive Frame := FrameChunk (c : Chunk) | FrameDone.

(* ========================================================================= *)
(** ** Codex adapter: [parseCodexStream] and [parseCodexResponse] *)
(* ========================================================================= *)

(** The fields of a parsed upstream event that the parsers read, with the
    types the code expects: [output[].type], [output[].content[].type],
    [output[].content[].text], and [message.content.parts]. *)
Record OutputContent := mkOutputContent {
  oc_type : string;
  oc_text : option string
}.

Record OutputItem := mkOutputItem {
  oi_type : string;
  oi_content : option (list OutputContent)
}.

Record CodexEvent := mkCodexEvent {
  ev_output : option (list OutputItem);
  ev_message_parts : option (list string)
}.

(** The inner loops of the "Responses API format" branch of the stream:
    [content] (the delta found so far) and [lastContent]. *)
Definition stream_output_text (acc : option string * string) (c : OutputContent)
  : option string * string :=
  let '(content, lastContent) := acc in
  if String.eqb (oc_type c) "output_text" then
    match opt_truthy_str (oc_text c) with
    | Some text =>
        let newContent := js_slice text (String.length lastContent) in
        if String.eqb newContent "" then acc else (Some newContent, text)
    | None => acc
    end
  else acc.

Definition stream_output_item (acc : option string * string) (item : OutputItem)
  : option string * string :=
  if String.eqb (oi_type item) "message" then
    match oi_content item with
    | Some cs => fold_left stream_output_text cs acc
    | None => acc
    end
  else acc.

(** One parsed event: the delta to yield (if any) and the new [lastContent]. *)
Definition codex_stream_event (lastContent : string) (ev : CodexEvent) : option string * string :=
  let acc := match ev_output ev with
             | Some items => fold_left stream_output_item items (None, lastContent)
             | None => (None, lastContent)
             end in
  match acc with
  | (None, last) =>
      match ev_message_parts ev with
      | Some (text :: _) =>
          if String.eqb text "" then acc
          else
            let newContent := js_slice text (String.length last) in
            if String.eqb newContent "" then acc else (Some newContent, text)
      | _ => acc
      end
  | _ => acc
  end.

Section CodexParsers.

(** [JSON.parse] of an event payload: [None] when it throws. *)
Variable parse_event : string -> option CodexEvent.

(** The [for (const line of lines)] loop of [parseCodexStream]: the chunks
    yielded, and [Some lastContent] to go on or [None] once the generator
    has returned on [[DONE]]. *)
Fixpoint codex_stream_lines (lastContent : string) (lines : list string)
  : list Chunk * option string :=
  match lines with
  | [] => ([], Some lastContent)
  | line :: rest =>
      match sse_data line with
      | None => codex_stream_lines lastContent rest
      | Some data =>
          if String.eqb data "[DONE]" then ([stop_chunk], None)
          else match parse_event data with
               | None => codex_stream_lines lastContent rest
               | Some ev =>
                   let '(content, last') := codex_stream_event lastContent ev in
                   let '(out, k) := codex_stream_lines last' rest in
                   match content with
                   | Some c => (content_chunk c :: out, k)
                   | None => (out, k)
                   end
               end
      end
  end.

(** The [while (true)] reader loop over the decoded body chunks. *)
Fixpoint codex_read_loop (buffer lastContent : string) (reads : list string) : list Chunk :=
  match reads with
  | [] => []
  | value :: more =>
      let '(lines, buffer') := take_complete_lines (String.append buffer value) in
      let '(out, k) := codex_stream_lines lastContent lines in
      match k with
      | None => out
      | Some last' => out ++ codex_read_loop buffer' last' more
      end
  end.

Definition parseCodexStream (reads : list string) : list Chunk :=
  codex_read_loop "" "" reads.

(** [streamCodexResponse] *)
Definition streamCodexResponse (reads : list string) : list Frame :=
  map FrameChunk (parseCodexStream reads) ++ [FrameDone].

(** The full-response parser's handling of one parsed event. *)
Definition response_output_text (content : string) (c : OutputContent) : string :=
  if String.eqb (oc_type c) "output_text" then
    match opt_truthy_str (oc_text c) with Some t => t | None => content end
  else content.

Definition response_output_item (content : string) (item : OutputItem) : string :=
  if String.eqb (oi_type item) "message" then
    match oi_content item with
    | Some cs => fold_left response_output_text cs content
    | None => content
    end
  else content.

Definition codex_response_event (content : string) (ev : CodexEvent) : string :=
  let content := match ev_output ev with
                 | Some items => fold_left response_output_item items content
                 | None => content
                 end in
  if String.eqb content "" then
    match ev_message_parts ev with
    | Some parts => match parts with p :: _ => p | [] => "" end
    | None => content
    end
  else content.

Definition codex_response_line (content : string) (line : string) : string :=
  match sse_data line with
  | None => content
  | Some data =>
      if String.eqb data "[DONE]" then content
      else match parse_event data with
           | Some ev => codex_response_event content ev
           | None => content
           end
  end.

(** [APIResponse] with its single choice (id, created, usage left out). *)
Record APIResponse := mkAPIResponse {
  resp_model : string;
  message_role : string;
  message_content : option string;
  message_tool_calls : option (list ToolCall);
  resp_finish_reason : option string
}.

Definition parseCodexResponse (text : string) (model : string) : APIResponse :=
  let lines := filter (fun l => String.prefix "data: " l) (split_lines text) in
  let content := fold_left codex_response_line lines "" in
  mkAPIResponse model "assistant"
    (if String.eqb content "" then None else Some content) None (Some "stop").

End CodexParsers.

(* ========================================================================= *)
(** ** Antigravity stream: [streamAntigravityResponse] *)
(* ========================================================================= *)

(** An upstream part as read by the response parsers: [text], [thought] and
    [functionCall] ([name], [args], optional [id]). *)
Record AgPartIn := mkAgPartIn {
  pin_text : option string;
  pin_thought : option bool;
  pin_functionCall : option (string * json * option string)
}.

Record AgCandidate := mkAgCandidate {
  cand_parts : option (list AgPartIn);
  cand_finishReason : option string
}.

(** [AntigravityResponse.response.candidates] *)
Record AgResponse := mkAgResponse {
  ag_candidates : option (list AgCandidate)
}.

(** [parsed.response?.candidates?.[0]?.content?.parts ?? []] *)
Definition first_candidate_parts (r : AgResponse) : list AgPartIn :=
  match ag_candidates r with
  | Some (c :: _) => match cand_parts c with Some ps => ps | None => [] end
  | _ => []
  end.

(** The chunks written for one part: a text chunk when [part.text] is
    truthy and [part.thought] is not, then a tool-call chunk when
    [part.functionCall] is present. *)
Definition ag_part_chunks (part : AgPartIn) : list Chunk :=
  (match opt_truthy_str (pin_text part), pin_thought part with
   | Some t, Some true => []
   | Some t, _ => [content_chunk t]
   | None, _ => []
   end) ++
  (match pin_functionCall part with
   | Some (name, args, id) =>
       [mkChunk None (Some (mkDeltaToolCall (opt_truthy_str id) name args)) None]
   | None => []
   end).

Section AntigravityStream.

(** [JSON.parse] of an event payload: [None] when it throws. *)
Variable parse_ag : string -> option AgResponse.

Definition ag_stream_line (line : string) : list Chunk :=
  match sse_data line with
  | None => []
  | Some data =>
      if String.eqb data "" || String.eqb data "[DONE]" then []
      else match parse_ag data with
           | Some parsed => flat_map ag_part_chunks (first_candidate_parts parsed)
           | None => []
           end
  end.

Fixpoint ag_read_loop (buffer : string) (reads : list string) : list Chunk :=
  match reads with
  | [] => []
  | value :: more =>
      let '(lines, buffer') := take_complete_lines (String.append buffer value) in
      flat_map ag_stream_line lines ++ ag_read_loop buffer' more
  end.

(** [streamAntigravityResponse] *)
Definition streamAntigravityResponse (reads : list string) : list Frame :=
  map FrameChunk (ag_read_loop "" reads) ++ [FrameDone].

End AntigravityStream.

(* ========================================================================= *)
(** ** Notions used by the statements on the stream parsers *)
(* ========================================================================= *)

(** [delta.content], or the empty string when the chunk carries none. *)
Definition chunk_text (c : Chunk) : string :=
  match delta_content c with Some s => s | None => "" end.

(** The concatenation of the content deltas of a chunk sequence. *)
Definition concat_deltas (cs : list Chunk) : string :=
  fold_right (fun c acc => String.append (chunk_text c) acc) "" cs.

(** A chunk whose [content] field, when present, is not the empty string. *)
Definition nonempty_content (c : Chunk) : Prop :=
  forall s, delta_content c = Some s -> s <> "".

Definition frame_nonempty_content (f : Frame) : Prop :=
  match f with FrameChunk c => nonempty_content c | FrameDone => True end.

Definition nonempty_str (s : string) : bool := negb (String.eqb s "").

(** An upstream event whose full accumulated text is [t], in either of the
    two shapes the parser reads: a single [message] item with a single
    [output_text] content, or the conversation format [message.content.parts]
    with [t] first. *)
Inductive carries_text : CodexEvent -> string -> Prop :=
  | carries_output_text (t : string) :
      carries_text
        (mkCodexEvent (Some [mkOutputItem "message" (Some [mkOutputContent "output_text" (Some t)])])
           None) t
  | carries_message_parts (t : string) (rest : list string) :
      carries_text (mkCodexEvent None (Some (t :: rest))) t.

(** Each text of [ts] extends the one before it (the first one extends
    [prev]). *)
Fixpoint prefix_chain (prev : string) (ts : list string) : bool :=
  match ts with
  | [] => true
  | t :: rest => String.prefix prev t && prefix_chain t rest
  end.

(** The forward difference of each text against the one before it. *)
Fixpoint forward_diffs (prev : string) (ts : list string) : list string :=
  match ts with
  | [] => []
  | t :: rest => js_slice t (String.length prev) :: forward_diffs t rest
  end.

(** A stream line that carries the parsed event [ev]: a [data: ] line whose
    payload is not [[DONE]] and parses to [ev]. *)
Definition line_event (parse_event : string -> option CodexEvent) (line : string)
  (ev : CodexEvent) : Prop :=
  exists data, sse_data line = Some data /\ data <> "[DONE]" /\ parse_event data = Some ev.

Definition no_newline (s : string) : bool :=
  forallb (fun c => negb (Ascii.eqb c NEWLINE)) (list_ascii_of_string s).

(** A response body made of the given lines, each ended by a newline. *)
Definition stream_body (lines : list string) : string :=
  fold_right (fun l acc => String.append l (String NEWLINE acc)) "" lines.

(** An event from which [parseCodexStream] takes no text: no [message]
    item has an [output_text] content with a truthy text, and the first
    [message.content.parts] entry, if any, is empty. *)
Definition text_free_content (c : OutputContent) : bool :=
  negb (String.eqb (oc_type c) "output_text") ||
  match opt_truthy_str (oc_text c) with Some _ => false | None => true end.
Definition text_free_item (item : OutputItem) : bool :=
  negb (String.eqb (oi_type item) "message") ||
  match oi_content item with Some cs => forallb text_free_content cs | None => true end.
Definition text_free (ev : CodexEvent) : bool :=
  match ev_output ev with Some items => forallb text_free_item items | None => true end &&
  match ev_message_parts ev with Some (t :: _) => String.eqb t "" | _ => true end.

(** [event_texts evs ts]: each event of [evs] carries one accumulated text
    or no text, and [ts] lists the texts carried, in order. *)
Inductive event_texts : list CodexEvent -> list string -> Prop :=
  | event_texts_nil : event_texts [] []
  | event_texts_skip ev evs ts :
      text_free ev = true -> event_texts evs ts -> event_texts (ev :: evs) ts
  | event_texts_text ev t evs ts :
      carries_text ev t -> event_texts evs ts -> event_texts (ev :: evs) (t :: ts).

(** The [data: ] payloads the loops of [parseCodexStream] hand to
    [JSON.parse], in order (after the same [split("\n")] buffering and
    [line.slice(6).trim()]), and whether a [[DONE]] line ended the stream. *)
Fixpoint stream_lines_payloads (lines : list string) : list string * bool :=
  match lines with
  | [] => ([], false)
  | line :: rest =>
      match sse_data line with
      | None => stream_lines_payloads rest
      | Some data =>
          if String.eqb data "[DONE]" then ([], true)
          else let '(ds, d) := stream_lines_payloads rest in (data :: ds, d)
      end
  end.

Fixpoint stream_read_payloads (buffer : string) (reads : list string) : list string * bool :=
  match reads with
  | [] => ([], false)
  | value :: more =>
      let '(lines, buffer') := take_complete_lines (String.append buffer value) in
      let '(ds, d) := stream_lines_payloads lines in
      if d then (ds, true)
      else let '(ds', d') := stream_read_payloads buffer' more in (ds ++ ds', d')
  end.

(** The payloads that parse, as events. *)
Fixpoint parsed_events (parse_event : string -> option CodexEvent) (ds : list string)
  : list CodexEvent :=
  match ds with
  | [] => []
  | d :: rest =>
      match parse_event d with
      | Some ev => ev :: parsed_events parse_event rest
      | None => parsed_events parse_event rest
      end
  end.

Definition stream_events (parse_event : string -> option CodexEvent) (reads : list string)
  : list CodexEvent :=
  parsed_events parse_event (fst (stream_read_payloads "" reads)).

Definition stream_done (reads : list string) : bool := snd (stream_read_payloads "" reads).

(** The stop chunk, when the stream ended on [[DONE]]. *)
Definition stop_if (d : bool) : list Chunk := if d then [stop_chunk] else [].

(** Whether an event has text the full-response parser would take: a truthy
    [output_text] text in a [message] item, or a non-empty first
    [message.content.parts] entry. *)
Definition event_has_text (ev : CodexEvent) : bool :=
  (match ev_output ev with
   | Some items =>
       existsb (fun item =>
         String.eqb (oi_type item) "message" &&
         match oi_content item with
         | Some cs =>
             existsb (fun c =>
               String.eqb (oc_type c) "output_text" &&
               match opt_truthy_str (oc_text c) with Some _ => true | None => false end) cs
         | None => false
         end) items
   | None => false
   end ||
   match ev_message_parts ev with
   | Some (p :: _) => nonempty_str p
   | _ => false
   end)%bool.



(** The ids of all the tool calls the messages carry. *)
Definition tool_call_ids (messages : list ChatMessage) : list string :=
  flat_map (fun m => map tc_id (nonempty_tool_calls m)) messages.


(* ========================================================================= *)
(** ** Sample inputs *)
(* ========================================================================= *)

(** Two accounts [a], [b] with different ids; the first upstream call of a
    run answers 429, every later one 429 as well or 200, depending on the
    demo. *)
Definition demo_a : ProviderAccount := mkAccount "ag-1" "a@example.com".
Definition demo_b : ProviderAccount := mkAccount "ag-2" "b@example.com".
Definition demo_pool : PoolState := mkPool [demo_a; demo_b] [] 0 0.
Definition demo_model : ModelConfig :=
  mkModelConfig "claude-sonnet-4.5" "Claude Sonnet 4.5" Antigravity
    "claude-sonnet-4-5" AG_ENDPOINT 200000 64000 None None None.
Definition demo_req : APIRequest :=
  mkAPIRequest "claude-sonnet-4.5"
    [mkChatMessage RUser (CString "Hello!") None None None] (Some false) None None.

(** A 2xx Antigravity body: the JSON text [{"response":{}}]. *)
Definition DQUOTE : string := String (ascii_of_nat 34) EmptyString.
Definition demo_ag_body : string := String.concat "" ["{"; DQUOTE; "response"; DQUOTE; ":{}}"].

(** The Antigravity parse on the bodies of the demos: [JSON.parse] accepts
    [demo_ag_body] and [parseAntigravityResponse] builds a completion from
    it (no candidate: no parts, finish reason "stop"); the other texts the
    demos send ("ok", "rate limited") are not JSON, and [JSON.parse] throws. *)
Definition demo_ag_body_error (text : string) : option string :=
  if String.eqb text demo_ag_body then None
  else Some "SyntaxError: Unexpected token, not valid JSON".

Definition upstream_429_429_200 (n : nat) (_ : ProviderAccount) : UpstreamResult :=
  if Nat.ltb n 2 then UResponse 429 "rate limited" else UResponse 200 demo_ag_body.
Definition upstream_always_429 (_ : nat) (_ : ProviderAccount) : UpstreamResult :=
  UResponse 429 "rate limited".

(** The request for the inherited member [toString], with one Codex
    account that answers 429 and then 200: it is routed to the Codex pool,
    rotates once onto the same account and surfaces the 429. *)
Definition demo_codex_pool : PoolState := mkPool [] [mkAccount "cx-1" "c@example.com"] 0 0.
Definition demo_tostring_req : APIRequest :=
  mkAPIRequest "toString" [mkChatMessage RUser (CString "Hello!") None None None]
    (Some false) None None.

(** A tool call of an assistant turn. *)
Definition sample_tool_call : ToolCall := mkToolCall "call_1" "get_weather" "{}".


(** Codex events carrying the accumulated texts "He", "Hello" (twice, the
    second time in the conversation format) and "Hello world", under the
    payloads [e1] to [e4]; [e5] carries no text. *)
Definition sample_event (t : string) : CodexEvent :=
  mkCodexEvent (Some [mkOutputItem "message" (Some [mkOutputContent "output_text" (Some t)])])
    None.

Definition sample_parse_event (data : string) : option CodexEvent :=
  if String.eqb data "e1" then Some (sample_event "He")
  else if String.eqb data "e2" then Some (sample_event "Hello")
  else if String.eqb data "e3" then Some (mkCodexEvent None (Some ["Hello"]))
  else if String.eqb data "e4" then Some (sample_event "Hello world")
  else if String.eqb data "e5" then
    Some (mkCodexEvent (Some [mkOutputItem "message" (Some [mkOutputContent "output_text" (Some "")])])
            (Some [""]))
  else None.

(** A stream cut into two reads, the second read finishing the line the
    first one started: a blank line, a non-data line, an event without
    text, a comment, a payload that does not parse, the events [e1] to
    [e4], [[DONE]], and a line after it. *)
Definition sample_reads : list string :=
  [String.append (stream_body ["data: e1"; ""; "event: x"; "data: e5"]) "da";
   stream_body ["ta: e2"; ": ping"; "data: junk"; "data: e3"; "data: e4"; "data: [DONE]";
                "data: e1"]].
Definition sample_texts : list string := ["He"; "Hello"; "Hello"; "Hello world"].
Definition sample_response_body : string := stream_body ["data: e5"; "data: [DONE]"].

(** A tool schema as [JSON.parse] returns it for
    [{"__proto__":{"type":"string"},"properties":{}}]: ["__proto__"] is an
    own property of the parsed object. *)
Definition proto_schema : json :=
  JObj [("__proto__", JObj [("type", JStr "string")] None); ("properties", JObj [] None)] None.

(* ========================================================================= *)
(** ** Schema shape, system texts and tool history *)
(* ========================================================================= *)

(** The shape of a schema as [cleanSchema] returns it: no object (its own
    entries, or the prototype the [__proto__] setter installed) has a key
    the cleaner skips, no array has a falsy item, and an object whose
    [properties] is truthy has a truthy [type] (own or inherited). *)
Fixpoint schema_clean (j : json) : bool :=
  match j with
  | JArr xs => forallb js_truthy xs && forallb schema_clean xs
  | JObj props proto =>
      forallb (fun kv => negb (skipped_key (fst kv)) && schema_clean (snd kv)) props &&
      match proto with Some p => schema_clean p | None => true end &&
      (negb (js_truthy_opt (js_get j "properties")) || js_truthy_opt (js_get j "type"))
  | _ => true
  end.

(** ["\n\n"] *)
Definition NL2 : string := String (ascii_of_nat 10) (String (ascii_of_nat 10) EmptyString).

Definition is_system (m : ChatMessage) : bool := role_eqb (msg_role m) RSystem.

(** The texts of the system messages, in order. *)
Definition system_texts (messages : list ChatMessage) : list string :=
  map (fun m => system_text (msg_content_of m)) (filter is_system messages).

(** The list without its leading empty strings. *)
Fixpoint drop_leading_empty (ts : list string) : list string :=
  match ts with
  | t :: rest => if String.eqb t "" then drop_leading_empty rest else ts
  | [] => []
  end.

(** The conversation without its tool history: the [tool] messages
    removed, and the tool calls, tool-call ids and names of the other
    messages erased. *)
Definition strip_tool_history (messages : list ChatMessage) : list ChatMessage :=
  map (fun m => mkChatMessage (msg_role m) (msg_content_of m) None None None)
      (filter (fun m => negb (role_eqb (msg_role m) RTool)) messages).

(* ========================================================================= *)
(** ** Codex adapter: [convertToResponsesFormat] and [callCodex] *)
(* ========================================================================= *)

(** A Responses-API input item [{type, role, content: [{type, text}]}]. *)
Record InputText := mkInputText {
  it_type : string;
  it_text : string
}.

Record ResponsesItem := mkResponsesItem {
  ri_type : string;
  ri_role : string;
  ri_content : list InputText
}.

(** [{type: "function", name, description, parameters}] *)
Record CodexTool := mkCodexTool {
  ct_type : string;
  ct_name : string;
  ct_description : option string;
  ct_parameters : option json
}.

Record ResponsesFormat := mkResponsesFormat {
  rf_instructions : option string;
  rf_input : list ResponsesItem;
  rf_tools : list CodexTool
}.

(** One iteration of the [for (const msg of messages)] loop: [instructions]
    and [input]. The text of a non-system message is computed by the same
    expression as the system text ([system_text]): the string itself, the
    joined text parts of an array, and [""] otherwise. *)
Definition responses_step (acc : option string * list ResponsesItem) (msg : ChatMessage)
  : option string * list ResponsesItem :=
  let '(instructions, input) := acc in
  match msg_role msg with
  | RSystem =>
      let text := system_text (msg_content_of msg) in
      (Some (match opt_truthy_str instructions with
             | Some i => String.append i (String.append NL2 text)
             | None => text
             end), input)
  | RTool => acc
  | r =>
      let text := system_text (msg_content_of msg) in
      if String.eqb text "" then acc
      else (instructions,
            input ++ [mkResponsesItem "message"
                        (match r with RAssistant => "assistant" | _ => "user" end)
                        [mkInputText "input_text" text]])
  end.

Definition convertToResponsesFormat (messages : list ChatMessage) (tools : option (list Tool))
  : ResponsesFormat :=
  let '(instructions, input) := fold_left responses_step messages (None, []) in
  mkResponsesFormat instructions input
    (map (fun t => mkCodexTool "function" (fn_name t) (fn_description t) (fn_parameters t))
       (filter (fun t => String.eqb (tool_type t) "function")
          (match tools with Some ts => ts | None => [] end))).

(** The body [callCodex] posts. *)
Record CodexRequest := mkCodexRequest {
  cr_model : string;
  cr_instructions : option string;
  cr_input : list ResponsesItem;
  cr_tools : list CodexTool;
  cr_tool_choice : option string;
  cr_store : bool;
  cr_stream : bool;
  cr_max_output_tokens : option Z;
  cr_temperature : option Z
}.

(** [callCodex]: the request body, or [None] when it throws for a missing
    session token. *)
Definition callCodex (sessionToken : option string) (model : ModelConfig)
  (messages : list ChatMessage) (tools : option (list Tool)) (options : CallOptions)
  : option CodexRequest :=
  match opt_truthy_str sessionToken with
  | None => None
  | Some _ =>
      let rf := convertToResponsesFormat messages tools in
      Some (mkCodexRequest (actualModel model) (rf_instructions rf) (rf_input rf) (rf_tools rf)
              (match rf_tools rf with [] => None | _ => Some "auto" end)
              false
              (match opt_stream options with Some b => b | None => true end)
              (opt_maxTokens options) (opt_temperature options))
  end.

(* ========================================================================= *)
(** ** Antigravity adapter: [parseAntigravityResponse] *)
(* ========================================================================= *)

(** [response.usageMetadata] *)
Record AgUsage := mkAgUsage {
  promptTokenCount : option Z;
  candidatesTokenCount : option Z;
  totalTokenCount : option Z
}.

(** [AntigravityResponse]: [response.candidates] (as the stream reads it)
    and [response.usageMetadata]. *)
Record AntigravityResponse := mkAntigravityResponse {
  agr_response : AgResponse;
  agr_usageMetadata : option AgUsage
}.

(** The [APIResponse] of [parseAntigravityResponse] (id and created left
    out). A tool call is kept as the stream keeps it: the upstream id, or
    [None] when a random [call_...] id is generated, then the name and the
    arguments before [JSON.stringify]. *)
Record AgAPIResponse := mkAgAPIResponse {
  agapi_model : string;
  agapi_content : option string;
  agapi_tool_calls : option (list DeltaToolCall);
  agapi_finish_reason : string;
  prompt_tokens : Z;
  completion_tokens : Z;
  total_tokens : Z
}.

(** [response.response.candidates?.[0]] *)
Definition first_candidate (r : AgResponse) : option AgCandidate :=
  match ag_candidates r with Some (c :: _) => Some c | _ => None end.

(** One iteration of the loop over the parts: [textContent] and [toolCalls]. *)
Definition ag_response_part (acc : string * list DeltaToolCall) (part : AgPartIn)
  : string * list DeltaToolCall :=
  let '(textContent, toolCalls) := acc in
  (match opt_truthy_str (pin_text part), pin_thought part with
   | Some t, Some true => textContent
   | Some t, _ => String.append textContent t
   | None, _ => textContent
   end,
   match pin_functionCall part with
   | Some (name, args, id) => toolCalls ++ [mkDeltaToolCall (opt_truthy_str id) name args]
   | None => toolCalls
   end).

Definition parseAntigravityResponse (response : AntigravityResponse) (model : string)
  : AgAPIResponse :=
  let candidate := first_candidate (agr_response response) in
  let parts := first_candidate_parts (agr_response response) in
  let '(textContent, toolCalls) := fold_left ag_response_part parts ("", []) in
  let by_tool_calls := match toolCalls with [] => "stop" | _ => "tool_calls" end in
  let finishReason :=
    match candidate with
    | Some c =>
        match cand_finishReason c with
        | Some f => if String.eqb f "STOP" then "stop"
                    else if String.eqb f "MAX_TOKENS" then "length"
                    else by_tool_calls
        | None => by_tool_calls
        end
    | None => by_tool_calls
    end in
  let usage (f : AgUsage -> option Z) :=
    match agr_usageMetadata response with
    | Some u => match f u with Some n => n | None => 0 end
    | None => 0
    end in
  mkAgAPIResponse model
    (if String.eqb textContent "" then None else Some textContent)
    (match toolCalls with [] => None | _ => Some toolCalls end)
    finishReason
    (usage promptTokenCount) (usage candidatesTokenCount) (usage totalTokenCount).

(** The upstream response with the text of every thought part removed. *)
Definition erase_thought (p : AgPartIn) : AgPartIn :=
  match pin_thought p with
  | Some true => mkAgPartIn None (Some true) (pin_functionCall p)
  | _ => p
  end.

Definition erase_thoughts (r : AgResponse) : AgResponse :=
  mkAgResponse
    (option_map (map (fun c => mkAgCandidate (option_map (map erase_thought) (cand_parts c))
                                 (cand_finishReason c)))
       (ag_candidates r)).

(** The tool calls a chunk sequence carries, in order. *)
Definition chunk_tool_calls (cs : list Chunk) : list DeltaToolCall :=
  flat_map (fun c => match delta_tool_call c with Some d => [d] | None => [] end) cs.

(** Whether a part carries a [functionCall]. *)
Definition has_function_call (p : AgPartIn) : bool :=
  match pin_functionCall p with Some _ => true | None => false end.

(* ========================================================================= *)
(** ** Codex events of a single shape *)
(* ========================================================================= *)

(** An event in the Responses-API format whose only text is [t], and one in
    the conversation format whose parts are [[t]]. *)
Definition output_text_event (t : string) : CodexEvent :=
  mkCodexEvent (Some [mkOutputItem "message" (Some [mkOutputContent "output_text" (Some t)])])
    None.

Definition conversation_event (t : string) : CodexEvent := mkCodexEvent None (Some [t]).

(** The last and the first non-empty string of a list ([""] if none). *)
Definition last_nonempty (ts : list string) : string :=
  fold_left (fun acc t => if String.eqb t "" then acc else t) ts "".

Definition first_nonempty (ts : list string) : string :=
  match filter nonempty_str ts with t :: _ => t | [] => "" end.

(* ========================================================================= *)
(** ** Factory configuration CLIs *)
(* ========================================================================= *)

(** [model.displayName], under a name the CLI records below do not shadow. *)
Definition model_displayName (m : ModelConfig) : string := displayName m.

(** [`${n}`] for a non-negative integer. *)
Definition show_nat (n : nat) : string := NilZero.string_of_uint (Nat.to_uint n).

(** [cli/setup-factory.ts]: the version writing [~/.factory/settings.json].
    The port is taken as its rendering [`${port}`]. *)
Module SetupFactory.

Record CustomModel := mkCustomModel {
  model : string;
  id : string;
  index : nat;
  baseUrl : string;
  apiKey : string;
  displayName : string;
  maxOutputTokens : Z;
  noImageSupport : bool;
  provider : string
}.

Definition is_alnum (c : ascii) : bool :=
  let n := nat_of_ascii c in
  ((Nat.leb 48 n && Nat.leb n 57) || (Nat.leb 65 n && Nat.leb n 90) ||
   (Nat.leb 97 n && Nat.leb n 122))%bool.

(** [s.replace(/[^a-zA-Z0-9]/g, "-")] *)
Definition sanitize (s : string) : string :=
  string_of_list_ascii (map (fun c => if is_alnum c then c else "-"%char) (list_ascii_of_string s)).

(** The [map] over [Object.values(MODELS)], from the current [index]. *)
Fixpoint generate_from (port : string) (index : nat) (models : list ModelConfig)
  : list CustomModel :=
  match models with
  | [] => []
  | m :: rest =>
      mkCustomModel (mc_id m)
        (String.append "custom:" (String.append (sanitize (model_displayName m))
                                    (String.append "-" (show_nat index))))
        index
        (String.append "http://127.0.0.1:" (String.append port "/v1"))
        "sk-not-needed" (model_displayName m) (outputLimit m) false "generic-chat-completion-api"
      :: generate_from port (S index) rest
  end.

(** [generateModelConfigs], for the list [Object.values(MODELS)]. *)
Definition generateModelConfigs (models : list ModelConfig) (port : string) : list CustomModel :=
  generate_from port 0 models.

End SetupFactory.

(** The earlier setup CLI of the repository (src/unnamed/part_001), writing
    [~/.factory/config.json] and merging into its [custom_models]. *)
Module SetupFactoryConfig.

Record CustomModel := mkCustomModel {
  model_display_name : string;
  model : string;
  base_url : string;
  api_key : string;
  provider : string
}.

Definition generateModelConfigs (port : string) : list CustomModel :=
  map (fun m => mkCustomModel (model_displayName m) (mc_id m)
                  (String.append "http://127.0.0.1:" (String.append port "/v1"))
                  "sk-not-needed" "generic-chat-completion-api")
      (filter (fun m => match mc_provider m with Antigravity => true | Codex => false end)
         (map snd MODELS)).

(** [!m.base_url.includes("127.0.0.1:8787") && !m.base_url.includes("127.0.0.1:" + port)] *)
Definition foreign_model (port : string) (m : CustomModel) : bool :=
  negb (string_includes (base_url m) "127.0.0.1:8787") &&
  negb (string_includes (base_url m) (String.append "127.0.0.1:" port)).

(** [config.custom_models] after one run of [main], from the loaded one. *)
Definition merge_custom_models (port : string) (custom_models : option (list CustomModel))
  : list CustomModel :=
  filter (foreign_model port) (match custom_models with Some l => l | None => [] end) ++
  generateModelConfigs port.

End SetupFactoryConfig.

(* ========================================================================= *)
(** * Proofs *)
(* ========================================================================= *)

(** ** Rotating account pool *)

Lemma accounts_of_bump (p q : Provider) (st : PoolState) :
  accounts_of q (bump_index p st) = accounts_of q st.
Proof. destruct p, q; reflexivity. Qed.

Lemma index_of_bump (p : Provider) (st : PoolState) :
  index_of p (bump_index p st) = S (index_of p st).
Proof. destruct p; reflexivity. Qed.

Lemma getNextAccount_nonempty (p : Provider) (st : PoolState) :
  accounts_of p st <> [] ->
  getNextAccount p st =
  nth_error (accounts_of p st) (Nat.modulo (index_of p st) (List.length (accounts_of p st))).
Proof.
  intros Hne. unfold getNextAccount.
  destruct (accounts_of p st); [contradiction | reflexivity].
Qed.

Lemma rotate_times_state (n : nat) (p : Provider) (st : PoolState) :
  accounts_of p (fst (rotate_times n p st)) = accounts_of p st /\
  index_of p (fst (rotate_times n p st)) = (index_of p st + n)%nat.
Proof.
  revert st; induction n as [|n IH]; intros st; simpl.
  - split; [reflexivity | lia].
  - destruct (rotate_times n p (bump_index p st)) as [st2 rest] eqn:E.
    simpl. destruct (IH (bump_index p st)) as [H1 H2]. rewrite E in H1, H2.
    simpl in H1, H2. rewrite accounts_of_bump in H1. rewrite index_of_bump in H2.
    split; [exact H1 | lia].
Qed.

Lemma rotate_times_outputs (n : nat) (p : Provider) (st : PoolState) :
  accounts_of p st <> [] ->
  snd (rotate_times n p st) =
  map (fun i => nth_error (accounts_of p st)
                  (Nat.modulo (index_of p st + S i) (List.length (accounts_of p st))))
      (seq 0 n).
Proof.
  revert st; induction n as [|n IH]; intros st Hne; simpl; [reflexivity|].
  destruct (rotate_times n p (bump_index p st)) as [st2 rest] eqn:E. simpl.
  assert (Hne' : accounts_of p (bump_index p st) <> []) by now rewrite accounts_of_bump.
  specialize (IH _ Hne'). rewrite E in IH. simpl in IH. rewrite IH.
  rewrite getNextAccount_nonempty by exact Hne'.
  rewrite accounts_of_bump, index_of_bump. f_equal.
  - f_equal. f_equal. lia.
  - rewrite <- seq_shift, map_map. apply map_ext. intros i. f_equal. f_equal. lia.
Qed.

Lemma map_nth_error_seq {A} (l : list A) :
  map (fun i => nth_error l i) (seq 0 (List.length l)) = map Some l.
Proof.
  induction l as [|x l IH]; simpl; [reflexivity|].
  f_equal. rewrite <- seq_shift, map_map. simpl. exact IH.
Qed.

Lemma nth_error_rotation {A} (l : list A) (k i : nat) :
  (k < List.length l)%nat -> (i < List.length l)%nat ->
  nth_error (skipn k l ++ firstn k l) i =
  nth_error l (Nat.modulo (k + i) (List.length l)).
Proof.
  intros Hk Hi. set (N := List.length l) in *.
  destruct (Nat.lt_ge_cases i (N - k)) as [Hlt | Hge].
  - rewrite nth_error_app1 by (rewrite length_skipn; lia).
    rewrite nth_error_skipn. rewrite Nat.mod_small by lia. reflexivity.
  - rewrite nth_error_app2 by (rewrite length_skipn; lia).
    rewrite length_skipn, nth_error_firstn. fold N.
    replace (Nat.ltb (i - (N - k)) k) with true by (symmetry; apply Nat.ltb_lt; lia).
    replace (k + i)%nat with ((k + i - N) + 1 * N)%nat by lia.
    rewrite Nat.Div0.mod_add, Nat.mod_small by lia. f_equal. lia.
Qed.

Lemma rotation_is_shift {A} (l : list A) (c : nat) :
  l <> [] ->
  map (fun i => nth_error l (Nat.modulo (c + S i) (List.length l))) (seq 0 (List.length l)) =
  map Some (skipn (Nat.modulo (S c) (List.length l)) l ++
            firstn (Nat.modulo (S c) (List.length l)) l).
Proof.
  intros Hne. set (N := List.length l).
  assert (HN : N <> 0%nat) by (subst N; destruct l; [contradiction | discriminate]).
  set (k := Nat.modulo (S c) N).
  assert (Hk : (k < N)%nat) by (apply Nat.mod_upper_bound; exact HN).
  assert (Hlen : List.length (skipn k l ++ firstn k l) = N).
  { rewrite length_app, length_skipn, length_firstn. fold N. lia. }
  rewrite <- (map_nth_error_seq (skipn k l ++ firstn k l)), Hlen.
  apply map_ext_in. intros i Hin. apply in_seq in Hin.
  rewrite nth_error_rotation by (fold N; lia). fold N. f_equal.
  unfold k. rewrite Nat.Div0.add_mod_idemp_l. f_equal. lia.
Qed.

(** Claim C2. For a pool with [N >= 1] accounts and any cursor, [N] calls of
    [rotateAccount] bring [getNextAccount] back to the account that was
    current before the first call, and the [N] accounts the calls return are
    the pool's accounts read cyclically in list order starting just after the
    current one, so each account is returned exactly once. *)
Theorem rotation_full_cycle (p : Provider) (st : PoolState)
  (Hne : accounts_of p st <> []) :
  let accs := accounts_of p st in
  let N := List.length accs in
  let k := Nat.modulo (S (index_of p st)) N in
  getNextAccount p (fst (rotate_times N p st)) = getNextAccount p st /\
  snd (rotate_times N p st) = map Some (skipn k accs ++ firstn k accs) /\
  Permutation (skipn k accs ++ firstn k accs) accs.
Proof.
  intros accs N k.
  destruct (rotate_times_state N p st) as [Hacc Hidx].
  assert (HN : N <> 0%nat) by (subst N accs; destruct (accounts_of p st); [contradiction | discriminate]).
  split; [|split].
  - rewrite !getNextAccount_nonempty by (try rewrite Hacc; exact Hne).
    rewrite Hacc, Hidx. fold accs N. f_equal.
    replace (index_of p st + N)%nat with (index_of p st + 1 * N)%nat by lia.
    apply Nat.Div0.mod_add.
  - rewrite rotate_times_outputs by exact Hne. apply rotation_is_shift. exact Hne.
  - rewrite Permutation_app_comm, firstn_skipn. reflexivity.
Qed.

Lemma rotation_full_cycle_witness :
  let st := mkPool [mkAccount "a" "a@x"; mkAccount "b" "b@x"; mkAccount "c" "c@x"] [] 4 0 in
  accounts_of Antigravity st <> [] /\
  getNextAccount Antigravity (fst (rotate_times 3 Antigravity st)) =
    getNextAccount Antigravity st /\
  snd (rotate_times 3 Antigravity st) =
    map Some [mkAccount "c" "c@x"; mkAccount "a" "a@x"; mkAccount "b" "b@x"].
Proof.
  intros st. split; [discriminate|].
  destruct (rotation_full_cycle Antigravity st ltac:(discriminate)) as [H1 [H2 _]].
  split; [exact H1 | vm_compute in H2; vm_compute; exact H2].
Defined.

(** ** Gateway *)

Lemma mod2_cases (i : nat) :
  (Nat.modulo i 2 = 0 /\ Nat.modulo (S i) 2 = 1)%nat \/
  (Nat.modulo i 2 = 1 /\ Nat.modulo (S i) 2 = 0)%nat.
Proof.
  assert (Hb : (Nat.modulo i 2 < 2)%nat) by (apply Nat.mod_upper_bound; lia).
  replace (S i) with (i + 1)%nat by lia.
  rewrite <- (Nat.Div0.add_mod_idemp_l i 1 2).
  destruct (Nat.modulo i 2) as [|[|r]]; [left | right | lia]; split; reflexivity.
Qed.

(** Claim C9. When the request's model resolves to a provider whose pool is
    empty, the handler answers 503 with an [api_error] body whose code is 503,
    leaves the pool unchanged and makes no upstream call. *)
Theorem empty_pool_503 (upstream : nat -> ProviderAccount -> UpstreamResult)
  (ag_body_error : string -> option string) (fuel : nat) (req : APIRequest) (st : PoolState) (calls : nat) (mc : ModelConfig)
  (Hmodel : lookup_model (req_model req) = Some mc)
  (Hempty : accounts_of (mc_provider mc) st = []) :
  exists message,
    handleChatCompletion upstream ag_body_error (S fuel) req st calls =
    Some (mkHttpResponse 503 (BodyError (mkErrorBody message "api_error" 503)), st, calls).
Proof.
  eexists. simpl. unfold models_get. rewrite Hmodel. cbn [entry_pool].
  unfold getNextAccount. rewrite Hempty. reflexivity.
Qed.

Lemma empty_pool_503_witness :
  exists message,
    handleChatCompletion (fun _ _ => UResponse 200 "") demo_ag_body_error 1
      (mkAPIRequest "claude-sonnet-4.5" [] None None None) (mkPool [] [] 0 0) 0 =
    Some (mkHttpResponse 503 (BodyError (mkErrorBody message "api_error" 503)),
          mkPool [] [] 0 0, 0%nat).
Proof.
  apply (empty_pool_503 (fun _ _ => UResponse 200 "") demo_ag_body_error 0
           (mkAPIRequest "claude-sonnet-4.5" [] None None None) (mkPool [] [] 0 0) 0
           (mkModelConfig "claude-sonnet-4.5" "Claude Sonnet 4.5" Antigravity
              "claude-sonnet-4-5" AG_ENDPOINT 200000 64000 None None None));
    reflexivity.
Defined.

(** Claim C1 (counterexample). With two accounts and an upstream that
    answers 429 to the first two calls, the second 429 (from the rotated
    account) is not surfaced: the handler rotates and retries a second
    time, makes three upstream calls, advances the cursor by two and answers
    200 with the completion built from the third call's JSON body. *)
Lemma retry_429_second_429_not_surfaced :
  handleChatCompletion upstream_429_429_200 demo_ag_body_error 10 demo_req demo_pool 0 =
  Some (mkHttpResponse 200 BodyCompletion, mkPool [demo_a; demo_b] [] 2 0, 3%nat).
Proof. reflexivity. Qed.

(** With every upstream call answering 429, the handler never answers: for
    every amount of fuel it is still recursing (the source loops). *)
Lemma retry_429_all_rate_limited_never_answers (ag_body_error : string -> option string)
  (fuel : nat) :
  handleChatCompletion upstream_always_429 ag_body_error fuel demo_req demo_pool 0 = None.
Proof.
  assert (H : forall f i c,
    handleChatCompletion upstream_always_429 ag_body_error f demo_req (mkPool [demo_a; demo_b] [] i 0) c = None).
  { induction f as [|f IH]; intros i c; [reflexivity|].
    destruct (mod2_cases i) as [[H0 H1] | [H0 H1]];
      cbn -[Nat.modulo]; rewrite ?H0, ?H1; cbn -[Nat.modulo]; rewrite ?H0, ?H1;
      apply IH. }
  apply H.
Qed.

(** Retry on 429, as the code behaves, for any entry [MODELS[req.model]]
    resolves to (a registry model or an inherited member). (1) On a 429
    whose rotation yields an account with a different id, the handler starts
    over with the rotated pool: the retry is the whole handler again, with
    no retry counter. (2) When the rotation yields the same account id, the
    429 is surfaced with the upstream text. (3) Two-account scenario: a 429
    on the first upstream call and a 200 with body [t1] on the second give
    the client what the success path makes of [t1] (an event stream, a
    completion, or the 500 of a body the Antigravity parse rejects), after
    two upstream calls, with the cursor advanced by exactly one. *)
Theorem retry_429_behaviour :
  (forall upstream ag_body_error fuel req st calls e account st' na text,
     models_get (req_model req) = Some e ->
     getNextAccount (entry_pool e) st = Some account ->
     upstream calls account = UResponse 429 text ->
     rotateAccount (entry_pool e) st = (st', Some na) ->
     acc_id na <> acc_id account ->
     handleChatCompletion upstream ag_body_error (S fuel) req st calls =
     handleChatCompletion upstream ag_body_error fuel req st' (S calls)) /\
  (forall upstream ag_body_error fuel req st calls e account st' na text,
     models_get (req_model req) = Some e ->
     getNextAccount (entry_pool e) st = Some account ->
     upstream calls account = UResponse 429 text ->
     rotateAccount (entry_pool e) st = (st', Some na) ->
     acc_id na = acc_id account ->
     handleChatCompletion upstream ag_body_error (S fuel) req st calls =
     Some (sendError 429 text, st', S calls)) /\
  (forall upstream ag_body_error fuel req st e a b t0 t1,
     models_get (req_model req) = Some e ->
     accounts_of (entry_pool e) st = [a; b] ->
     acc_id a <> acc_id b ->
     (forall acc, upstream 0%nat acc = UResponse 429 t0) ->
     (forall acc, upstream 1%nat acc = UResponse 200 t1) ->
     handleChatCompletion upstream ag_body_error (S (S fuel)) req st 0 =
     Some (success_response ag_body_error (entry_pool e) req t1,
           bump_index (entry_pool e) st, 2%nat)).
Proof.
  split; [|split].
  - intros upstream ag_body_error fuel req st calls e account st' na text Hm Hg Hu Hr Hid.
    cbn [handleChatCompletion]. rewrite Hm. cbv zeta. rewrite Hg, Hu.
    cbn -[rotateAccount]. rewrite Hr.
    apply String.eqb_neq in Hid. rewrite Hid. reflexivity.
  - intros upstream ag_body_error fuel req st calls e account st' na text Hm Hg Hu Hr Hid.
    cbn [handleChatCompletion]. rewrite Hm. cbv zeta. rewrite Hg, Hu.
    cbn -[rotateAccount]. rewrite Hr.
    rewrite Hid, String.eqb_refl. reflexivity.
  - intros upstream ag_body_error fuel req st e a b t0 t1 Hm Hacc Hab H0 H1.
    set (p := entry_pool e) in *.
    assert (Hne : accounts_of p st <> []) by (rewrite Hacc; discriminate).
    assert (Hne' : accounts_of p (bump_index p st) <> []) by now rewrite accounts_of_bump.
    pose proof (getNextAccount_nonempty p st Hne) as G0.
    pose proof (getNextAccount_nonempty p (bump_index p st) Hne') as G1.
    rewrite accounts_of_bump, index_of_bump, Hacc in G1. rewrite Hacc in G0.
    simpl List.length in G0, G1.
    destruct (mod2_cases (index_of p st)) as [[E0 E1] | [E0 E1]];
      rewrite E0 in G0; rewrite E1 in G1; simpl in G0, G1.
    + cbn [handleChatCompletion]. rewrite Hm. cbv zeta. fold p. rewrite G0, H0.
      cbn -[handleChatCompletion getNextAccount].
      unfold rotateAccount. rewrite G1.
      assert (Hba : String.eqb (acc_id b) (acc_id a) = false)
        by (apply String.eqb_neq; congruence).
      rewrite Hba. cbn [negb handleChatCompletion]. rewrite H1. reflexivity.
    + cbn [handleChatCompletion]. rewrite Hm. cbv zeta. fold p. rewrite G0, H0.
      cbn -[handleChatCompletion getNextAccount].
      unfold rotateAccount. rewrite G1.
      assert (Hab' : String.eqb (acc_id a) (acc_id b) = false)
        by (apply String.eqb_neq; congruence).
      rewrite Hab'. cbn [negb handleChatCompletion]. rewrite H1. reflexivity.
Qed.

Lemma retry_429_behaviour_witness :
  handleChatCompletion upstream_429_429_200 demo_ag_body_error 3 demo_req demo_pool 0 =
    handleChatCompletion upstream_429_429_200 demo_ag_body_error 2 demo_req
      (mkPool [demo_a; demo_b] [] 1 0) 1 /\
  handleChatCompletion
    (fun n _ => if Nat.eqb n 0 then UResponse 429 "rl" else UResponse 200 demo_ag_body)
    demo_ag_body_error 2 demo_req demo_pool 0 =
    Some (mkHttpResponse 200 BodyCompletion, mkPool [demo_a; demo_b] [] 1 0, 2%nat) /\
  handleChatCompletion
    (fun n _ => if Nat.eqb n 0 then UResponse 429 "rl" else UResponse 200 "ok")
    demo_ag_body_error 2 demo_req demo_pool 0 =
    Some (sendError 500 "Internal error: SyntaxError: Unexpected token, not valid JSON",
          mkPool [demo_a; demo_b] [] 1 0, 2%nat).
Proof.
  destruct retry_429_behaviour as [Hstep [_ Hscen]]. split; [|split].
  - apply (Hstep upstream_429_429_200 demo_ag_body_error 2%nat demo_req demo_pool 0%nat
             (OwnModel demo_model) demo_a (mkPool [demo_a; demo_b] [] 1 0) demo_b
             "rate limited");
      try reflexivity; discriminate.
  - apply (Hscen _ demo_ag_body_error 0%nat demo_req demo_pool (OwnModel demo_model)
             demo_a demo_b "rl" demo_ag_body);
      try reflexivity; discriminate.
  - apply (Hscen _ demo_ag_body_error 0%nat demo_req demo_pool (OwnModel demo_model)
             demo_a demo_b "rl" "ok");
      try reflexivity; discriminate.
Defined.

(** ** Antigravity request: thinking configuration *)

Lemma lookup_model_in_In (key : string) (ms : list (string * ModelConfig)) (m : ModelConfig) :
  lookup_model_in key ms = Some m -> In m (map snd ms).
Proof.
  induction ms as [|[k m'] ms IH]; simpl; [discriminate|].
  destruct (String.eqb k key); [intros H; injection H; auto | auto].
Qed.

Lemma hasToolHistory_spec (messages : list ChatMessage) :
  hasToolHistory messages = true <-> Exists tool_history_message messages.
Proof.
  unfold hasToolHistory. rewrite existsb_exists, Exists_exists.
  split; intros [m [Hin Hm]]; exists m; split; auto.
  - unfold tool_history_message.
    apply orb_true_iff in Hm. destruct Hm as [Hm | Hm].
    + apply andb_true_iff in Hm. destruct Hm as [Hr Hl].
      right. split; [destruct (msg_role m); try discriminate; reflexivity|].
      unfold nonempty_tool_calls in Hl.
      destruct (tool_calls m) as [[|tc tcs]|]; simpl in Hl; try discriminate; eauto.
    + left. destruct (msg_role m); try discriminate; reflexivity.
  - destruct Hm as [Hr | [Hr [tc [tcs Ht]]]]; rewrite Hr; simpl.
    + reflexivity.
    + unfold nonempty_tool_calls. rewrite Ht. reflexivity.
Qed.

Lemma callAntigravity_generationConfig json_parse projectId model messages tools options :
  ar_generationConfig (callAntigravity json_parse projectId model messages tools options) =
  generation_config model messages options.
Proof.
  unfold callAntigravity. destruct (convertMessages json_parse messages). reflexivity.
Qed.

Lemma generation_config_budget (model : ModelConfig) (messages : list ChatMessage)
  (options : CallOptions) (b : Z) :
  thinkingBudget model = Some b -> b <> 0 ->
  generation_config model messages options =
  let maxOut := match opt_maxTokens options with Some n => n | None => outputLimit model end in
  if shouldUseThinking model messages
  then mkGenerationConfig (Some (if maxOut <=? b then 128000 else maxOut))
         (opt_temperature options) (Some (ThinkingBudget b))
  else mkGenerationConfig (Some maxOut) (opt_temperature options) None.
Proof.
  intros Hb Hb0. unfold generation_config. rewrite Hb.
  apply Z.eqb_neq in Hb0. rewrite Hb0.
  destruct (shouldUseThinking model messages), (opt_maxTokens options) as [n|]; simpl;
    try destruct (n <=? b); try destruct (outputLimit model <=? b); reflexivity.
Qed.

(** Claim C4. For every registry entry of the Antigravity provider that is a
    Claude-family thinking model, the upstream request has no
    [thinkingConfig] when the history holds a [tool] message or an assistant
    message with a non-empty [tool_calls] list, and has one otherwise. *)
Theorem claude_thinking_off_with_tool_history
  (key : string) (m : ModelConfig)
  (Hm : lookup_model key = Some m) (Hag : mc_provider m = Antigravity)
  (Hclaude : isClaude m = true) (Hthink : isThinking m = Some true)
  (json_parse : string -> option json) (projectId : option string)
  (messages : list ChatMessage) (tools : option (list Tool)) (options : CallOptions) :
  let gc := ar_generationConfig (callAntigravity json_parse projectId m messages tools options) in
  (Exists tool_history_message messages -> thinkingConfig gc = None) /\
  (~ Exists tool_history_message messages -> thinkingConfig gc <> None).
Proof.
  intros gc. subst gc. rewrite callAntigravity_generationConfig.
  assert (Hb : exists b, thinkingBudget m = Some b /\ b <> 0).
  { apply lookup_model_in_In in Hm. simpl in Hm.
    repeat destruct Hm as [Hm | Hm]; try contradiction; subst m;
      first [ vm_compute in Hclaude; discriminate
            | vm_compute in Hthink; discriminate
            | vm_compute in Hag; discriminate
            | eexists; split; [reflexivity | discriminate] ]. }
  destruct Hb as [b [Hb Hb0]].
  rewrite (generation_config_budget m messages options b Hb Hb0).
  unfold shouldUseThinking. rewrite Hthink, Hclaude. simpl.
  split.
  - intros Hex. apply hasToolHistory_spec in Hex. rewrite Hex. reflexivity.
  - intros Hnot. destruct (hasToolHistory messages) eqn:E.
    + exfalso. apply Hnot, hasToolHistory_spec, E.
    + discriminate.
Qed.

Lemma claude_thinking_off_with_tool_history_witness :
  let m := mkModelConfig "claude-opus-4.5-thinking-high" "Claude Opus 4.5 Thinking (High)"
             Antigravity "claude-opus-4-5-thinking" AG_ENDPOINT 200000 64000
             (Some true) (Some 32000) None in
  let msgs := [mkChatMessage RUser (CString "hi") None None None;
               mkChatMessage RAssistant CNull None (Some [sample_tool_call]) None;
               mkChatMessage RTool (CString "sunny") None None (Some "call_1")] in
  thinkingConfig (ar_generationConfig
    (callAntigravity (fun _ => None) None m msgs None (mkCallOptions None None None))) = None.
Proof.
  intros m msgs.
  apply (claude_thinking_off_with_tool_history "claude-opus-4.5-thinking-high" m
           eq_refl eq_refl eq_refl eq_refl).
  apply Exists_cons_tl, Exists_cons_hd. right. split; [reflexivity|].
  exists sample_tool_call, []. reflexivity.
Defined.

(** Claim C6. With thinking enabled for a model whose thinking budget is a
    fixed, non-zero number [b], the [maxOutputTokens] sent upstream is 128000
    when the effective value ([max_tokens], or the model's output limit when
    absent) is at most [b], and that effective value otherwise. *)
Theorem thinking_budget_raises_max_output
  (json_parse : string -> option json) (projectId : option string)
  (m : ModelConfig) (messages : list ChatMessage) (tools : option (list Tool))
  (options : CallOptions) (b : Z)
  (Hb : thinkingBudget m = Some b) (Hb0 : b <> 0)
  (Hthink : shouldUseThinking m messages = true) :
  let gc := ar_generationConfig (callAntigravity json_parse projectId m messages tools options) in
  let effective := match opt_maxTokens options with Some n => n | None => outputLimit m end in
  thinkingConfig gc = Some (ThinkingBudget b) /\
  (effective <= b -> maxOutputTokens gc = Some 128000) /\
  (b < effective -> maxOutputTokens gc = Some effective).
Proof.
  intros gc effective. subst gc. rewrite callAntigravity_generationConfig.
  rewrite (generation_config_budget m messages options b Hb Hb0), Hthink. simpl.
  fold effective. split; [reflexivity | split]; intros H.
  - apply Z.leb_le in H. rewrite H. reflexivity.
  - assert (H' : (effective <=? b) = false) by (apply Z.leb_gt; exact H).
    rewrite H'. reflexivity.
Qed.

Lemma thinking_budget_raises_max_output_witness :
  let m := mkModelConfig "claude-sonnet-4.5-thinking-low" "Claude Sonnet 4.5 Thinking (Low)"
             Antigravity "claude-sonnet-4-5-thinking" AG_ENDPOINT 200000 64000
             (Some true) (Some 8000) None in
  let msgs := [mkChatMessage RUser (CString "hi") None None None] in
  maxOutputTokens (ar_generationConfig
    (callAntigravity (fun _ => None) None m msgs None (mkCallOptions (Some 4096) None None)))
    = Some 128000.
Proof.
  intros m msgs.
  destruct (thinking_budget_raises_max_output (fun _ => None) None m msgs None
              (mkCallOptions (Some 4096) None None) 8000 eq_refl ltac:(discriminate) eq_refl)
    as [_ [Hle _]].
  apply Hle. simpl. lia.
Defined.

(** ** Stream parsers: content deltas *)

Lemma fold_left_invariant {A B} (P : A -> Prop) (f : A -> B -> A) (l : list B) (a : A) :
  (forall a b, P a -> P (f a b)) -> P a -> P (fold_left f l a).
Proof.
  intros Hf. revert a. induction l as [|b l IH]; intros a Ha; simpl; auto.
Qed.

Lemma opt_truthy_str_nonempty (o : option string) (s : string) :
  opt_truthy_str o = Some s -> s <> "".
Proof.
  destruct o as [t|]; simpl; [|discriminate].
  destruct (String.eqb_spec t ""); [discriminate|]. intros H; inversion H; subst; auto.
Qed.

Definition delta_ok (acc : option string * string) : Prop :=
  forall s, fst acc = Some s -> s <> "".

Lemma stream_output_text_ok (acc : option string * string) (c : OutputContent) :
  delta_ok acc -> delta_ok (stream_output_text acc c).
Proof.
  destruct acc as [content lastContent]. unfold stream_output_text.
  destruct (String.eqb (oc_type c) "output_text"); auto.
  destruct (opt_truthy_str (oc_text c)) as [text|]; auto.
  destruct (String.eqb_spec (js_slice text (String.length lastContent)) ""); auto.
  intros _ s H; simpl in H; inversion H; subst; auto.
Qed.

Lemma stream_output_item_ok (acc : option string * string) (item : OutputItem) :
  delta_ok acc -> delta_ok (stream_output_item acc item).
Proof.
  unfold stream_output_item. destruct (String.eqb (oi_type item) "message"); auto.
  destruct (oi_content item) as [cs|]; auto.
  intros H. apply fold_left_invariant; auto using stream_output_text_ok.
Qed.

Lemma codex_stream_event_ok (lastContent : string) (ev : CodexEvent) :
  delta_ok (codex_stream_event lastContent ev).
Proof.
  unfold codex_stream_event.
  assert (Hacc : delta_ok (match ev_output ev with
                           | Some items => fold_left stream_output_item items (None, lastContent)
                           | None => (None, lastContent)
                           end)).
  { destruct (ev_output ev) as [items|].
    - apply fold_left_invariant; [apply stream_output_item_ok | intros s H; discriminate].
    - intros s H; discriminate. }
  destruct (match ev_output ev with
            | Some items => fold_left stream_output_item items (None, lastContent)
            | None => (None, lastContent)
            end) as [[c|] last]; auto.
  destruct (ev_message_parts ev) as [[|text rest]|]; auto.
  destruct (String.eqb text ""); auto.
  destruct (String.eqb_spec (js_slice text (String.length last)) ""); auto.
  intros s H; simpl in H; inversion H; subst; auto.
Qed.

Lemma codex_stream_lines_ok (parse_event : string -> option CodexEvent)
  (lastContent : string) (lines : list string) :
  Forall nonempty_content (fst (codex_stream_lines parse_event lastContent lines)).
Proof.
  revert lastContent. induction lines as [|line rest IH]; intros lastContent; simpl; auto.
  destruct (sse_data line) as [data|]; auto.
  destruct (String.eqb data "[DONE]").
  - constructor; [intros s H; discriminate | constructor].
  - destruct (parse_event data) as [ev|]; auto.
    pose proof (codex_stream_event_ok lastContent ev) as Hev.
    destruct (codex_stream_event lastContent ev) as [content last'].
    specialize (IH last').
    destruct (codex_stream_lines parse_event last' rest) as [out k].
    destruct content as [c|]; simpl in *; [|exact IH].
    constructor; [|exact IH]. intros s H; inversion H; subst. apply (Hev s); reflexivity.
Qed.

Lemma codex_read_loop_ok (parse_event : string -> option CodexEvent)
  (buffer lastContent : string) (reads : list string) :
  Forall nonempty_content (codex_read_loop parse_event buffer lastContent reads).
Proof.
  revert buffer lastContent. induction reads as [|value more IH]; intros buffer lastContent;
    cbn [codex_read_loop]; auto.
  destruct (take_complete_lines (String.append buffer value)) as [lines buffer'].
  pose proof (codex_stream_lines_ok parse_event lastContent lines) as Hl.
  destruct (codex_stream_lines parse_event lastContent lines) as [out [last'|]]; simpl in Hl;
    auto.
  apply Forall_app; split; auto.
Qed.

Lemma ag_part_chunks_ok (part : AgPartIn) : Forall nonempty_content (ag_part_chunks part).
Proof.
  unfold ag_part_chunks. apply Forall_app. split.
  - destruct (opt_truthy_str (pin_text part)) as [t|] eqn:E;
      [|constructor].
    destruct (pin_thought part) as [[|]|]; repeat constructor;
      intros s H; inversion H; subst; eapply opt_truthy_str_nonempty; eauto.
  - destruct (pin_functionCall part) as [[[name args] id]|]; repeat constructor.
    intros s H; discriminate.
Qed.

Lemma ag_read_loop_ok (parse_ag : string -> option AgResponse) (buffer : string)
  (reads : list string) :
  Forall nonempty_content (ag_read_loop parse_ag buffer reads).
Proof.
  revert buffer. induction reads as [|value more IH]; intros buffer; cbn [ag_read_loop]; auto.
  destruct (take_complete_lines (String.append buffer value)) as [lines buffer'].
  apply Forall_app. split; auto.
  apply Forall_forall. intros c Hc. apply in_flat_map in Hc as [line [_ Hc]].
  revert c Hc. apply Forall_forall. unfold ag_stream_line.
  destruct (sse_data line) as [data|]; auto.
  destruct (String.eqb data "" || String.eqb data "[DONE]")%bool; auto.
  destruct (parse_ag data) as [parsed|]; auto.
  apply Forall_forall. intros c Hc. apply in_flat_map in Hc as [part [_ Hc]].
  revert c Hc. apply Forall_forall, ag_part_chunks_ok.
Qed.

Lemma frames_ok (cs : list Chunk) :
  Forall nonempty_content cs -> Forall frame_nonempty_content (map FrameChunk cs ++ [FrameDone]).
Proof.
  intros H. apply Forall_app. split.
  - apply Forall_map. exact H.
  - repeat constructor.
Qed.

(** Claim C8. Neither stream path ever writes a chunk whose [content] delta
    is the empty string: for every sequence of body reads and every outcome
    of parsing the events, each [data:] frame written by
    [streamCodexResponse] and by [streamAntigravityResponse] that carries a
    [content] field carries a non-empty string. *)
Theorem stream_content_deltas_nonempty
  (parse_event : string -> option CodexEvent) (parse_ag : string -> option AgResponse)
  (reads : list string) :
  Forall frame_nonempty_content (streamCodexResponse parse_event reads) /\
  Forall frame_nonempty_content (streamAntigravityResponse parse_ag reads).
Proof.
  split; apply frames_ok; [apply codex_read_loop_ok | apply ag_read_loop_ok].
Qed.

(** ** Codex full-response parser *)

Lemma response_output_text_empty (c : OutputContent) :
  (String.eqb (oc_type c) "output_text" &&
   match opt_truthy_str (oc_text c) with Some _ => true | None => false end)%bool = false ->
  response_output_text "" c = "".
Proof.
  unfold response_output_text. destruct (String.eqb (oc_type c) "output_text"); auto.
  simpl. destruct (opt_truthy_str (oc_text c)); auto. discriminate.
Qed.

Lemma fold_response_output_text_empty (cs : list OutputContent) :
  existsb (fun c =>
    String.eqb (oc_type c) "output_text" &&
    match opt_truthy_str (oc_text c) with Some _ => true | None => false end)%bool cs = false ->
  fold_left response_output_text cs "" = "".
Proof.
  induction cs as [|c cs IH]; simpl; auto.
  intros H. apply orb_false_iff in H as [H1 H2].
  rewrite (response_output_text_empty c H1). apply IH, H2.
Qed.

Lemma codex_response_event_empty (ev : CodexEvent) :
  event_has_text ev = false -> codex_response_event "" ev = "".
Proof.
  unfold event_has_text, codex_response_event. intros H.
  apply orb_false_iff in H as [Hout Hparts].
  assert (Hc : match ev_output ev with
               | Some items => fold_left response_output_item items ""
               | None => ""
               end = "").
  { destruct (ev_output ev) as [items|]; auto.
    induction items as [|item items IH]; simpl in *; auto.
    apply orb_false_iff in Hout as [H1 H2].
    unfold response_output_item at 2.
    destruct (String.eqb (oi_type item) "message"); simpl in H1; [|apply IH, H2].
    destruct (oi_content item) as [cs|]; [|apply IH, H2].
    rewrite (fold_response_output_text_empty cs H1). apply IH, H2. }
  rewrite Hc. simpl.
  destruct (ev_message_parts ev) as [[|p rest]|]; auto.
  unfold nonempty_str in Hparts. destruct (String.eqb_spec p ""); [auto | discriminate].
Qed.

Lemma fold_codex_response_line_empty (parse_event : string -> option CodexEvent)
  (lines : list string) :
  (forall line data ev, In line lines -> sse_data line = Some data -> data <> "[DONE]" ->
     parse_event data = Some ev -> event_has_text ev = false) ->
  fold_left (codex_response_line parse_event) lines "" = "".
Proof.
  induction lines as [|line lines IH]; intros H; simpl; auto.
  assert (Hl : codex_response_line parse_event "" line = "").
  { unfold codex_response_line.
    destruct (sse_data line) as [data|] eqn:Hd; auto.
    destruct (String.eqb_spec data "[DONE]"); auto.
    destruct (parse_event data) as [ev|] eqn:Hp; auto.
    apply codex_response_event_empty. eapply H; eauto. left; reflexivity. }
  rewrite Hl. apply IH. intros; eapply H; eauto. right; assumption.
Qed.

(** Claim C10. [parseCodexResponse] always answers with [finish_reason]
    ["stop"] and no [tool_calls]; its content is [null] when no [data:] line
    (other than [[DONE]]) parses to an event with a truthy [output_text]
    text in a [message] item or a non-empty first [message.content.parts]
    entry. *)
Theorem codex_response_stop_no_tools
  (parse_event : string -> option CodexEvent) (text model : string) :
  let r := parseCodexResponse parse_event text model in
  resp_finish_reason r = Some "stop" /\
  message_tool_calls r = None /\
  ((forall line data ev, In line (split_lines text) -> sse_data line = Some data ->
      data <> "[DONE]" -> parse_event data = Some ev -> event_has_text ev = false) ->
   message_content r = None).
Proof.
  intros r. split; [reflexivity | split; [reflexivity|]].
  intros H. subst r. unfold parseCodexResponse. simpl.
  rewrite fold_codex_response_line_empty; [reflexivity|].
  intros line data ev Hin. apply filter_In in Hin as [Hin _]. eapply H; eauto.
Qed.

(** ** Codex stream: forward differences *)

Lemma string_append_empty_r (s : string) : String.append s "" = s.
Proof. induction s as [|c s IH]; simpl; congruence. Qed.

Lemma string_append_assoc (a b c : string) :
  String.append a (String.append b c) = String.append (String.append a b) c.
Proof. induction a as [|x a IH]; simpl; congruence. Qed.

Lemma substring_0_length (s : string) : substring 0 (String.length s) s = s.
Proof. induction s as [|c s IH]; simpl; congruence. Qed.

Lemma prefix_append_slice (p t : string) :
  String.prefix p t = true -> t = String.append p (js_slice t (String.length p)).
Proof.
  revert t. induction p as [|a p IH]; intros t H.
  - unfold js_slice. simpl. rewrite Nat.sub_0_r, substring_0_length. reflexivity.
  - destruct t as [|b t]; simpl in H; [discriminate|].
    destruct (ascii_dec a b) as [<-|]; [|discriminate].
    unfold js_slice in *. simpl. f_equal. apply IH, H.
Qed.

Lemma prefix_slice_empty (p t : string) :
  String.prefix p t = true -> js_slice t (String.length p) = "" -> t = p.
Proof.
  intros Hp He. rewrite (prefix_append_slice p t Hp), He. apply string_append_empty_r.
Qed.

Lemma prefix_empty_r (p : string) : String.prefix p "" = true -> p = "".
Proof. destruct p; simpl; congruence. Qed.

Lemma last_cons_default {A} (x : A) (l : list A) (d : A) : last (x :: l) d = last l x.
Proof.
  revert x d. induction l as [|y l IH]; intros x d; [reflexivity|].
  change (last (y :: l) d = last (y :: l) x). rewrite !IH. reflexivity.
Qed.

(** One event that carries the accumulated text [t], when [t] extends the
    text emitted so far: the delta is the forward difference, when it is
    not empty, and the text emitted so far becomes [t]. *)
Lemma codex_stream_event_carries (prev t : string) (ev : CodexEvent) :
  String.prefix prev t = true -> carries_text ev t ->
  codex_stream_event prev ev =
    (if String.eqb (js_slice t (String.length prev)) "" then None
     else Some (js_slice t (String.length prev)), t).
Proof.
  intros Hp Hc. destruct Hc as [t | t rest];
    unfold codex_stream_event, stream_output_item, stream_output_text; simpl.
  - destruct (String.eqb_spec t "") as [->|Ht].
    + apply prefix_empty_r in Hp. subst prev. reflexivity.
    + destruct (String.eqb_spec (js_slice t (String.length prev)) "") as [E|E]; [|reflexivity].
      rewrite (prefix_slice_empty prev t Hp E). reflexivity.
  - destruct (String.eqb_spec t "") as [->|Ht].
    + apply prefix_empty_r in Hp. subst prev. reflexivity.
    + destruct (String.eqb_spec (js_slice t (String.length prev)) "") as [E|E]; [|reflexivity].
      rewrite (prefix_slice_empty prev t Hp E). reflexivity.
Qed.

Lemma filter_nonempty_str_cons (x : string) (r : list string) :
  filter nonempty_str (x :: r) =
    if String.eqb x "" then filter nonempty_str r else x :: filter nonempty_str r.
Proof. unfold nonempty_str. simpl. destruct (String.eqb x ""); reflexivity. Qed.

Lemma fold_left_fixed {A B} (f : A -> B -> A) (l : list B) (a : A) :
  Forall (fun b => f a b = a) l -> fold_left f l a = a.
Proof. induction 1; simpl; congruence. Qed.

Lemma text_free_event (last : string) (ev : CodexEvent) :
  text_free ev = true -> codex_stream_event last ev = (None, last).
Proof.
  unfold text_free, codex_stream_event. intros H. apply andb_true_iff in H as [Ho Hm].
  assert (Hacc : match ev_output ev with
                 | Some items => fold_left stream_output_item items (None, last)
                 | None => (None, last) end = (None, last)).
  { destruct (ev_output ev) as [items|]; [|reflexivity].
    apply fold_left_fixed. apply Forall_forall. intros item Hin.
    apply forallb_forall with (x := item) in Ho; [|exact Hin].
    unfold text_free_item in Ho. unfold stream_output_item.
    destruct (String.eqb (oi_type item) "message"); [|reflexivity]. simpl in Ho.
    destruct (oi_content item) as [cs|]; [|reflexivity].
    apply fold_left_fixed. apply Forall_forall. intros c Hc.
    apply forallb_forall with (x := c) in Ho; [|exact Hc].
    unfold text_free_content in Ho. unfold stream_output_text.
    destruct (String.eqb (oc_type c) "output_text"); [|reflexivity]. simpl in Ho.
    destruct (opt_truthy_str (oc_text c)); [discriminate | reflexivity]. }
  rewrite Hacc. destruct (ev_message_parts ev) as [[|t rest]|]; auto.
  apply String.eqb_eq in Hm. subst t. reflexivity.
Qed.

Lemma event_texts_app (a b : list CodexEvent) (ts : list string) :
  event_texts (a ++ b) ts ->
  exists ts1 ts2, ts = ts1 ++ ts2 /\ event_texts a ts1 /\ event_texts b ts2.
Proof.
  revert ts. induction a as [|ev a IH]; intros ts H.
  - exists [], ts. split; [reflexivity | split; [constructor | exact H]].
  - inversion H; subst.
    + destruct (IH ts H4) as (ts1 & ts2 & -> & Ha & Hb).
      exists ts1, ts2. split; [reflexivity | split; [apply event_texts_skip; auto | exact Hb]].
    + destruct (IH ts0 H4) as (ts1 & ts2 & -> & Ha & Hb).
      exists (t :: ts1), ts2. split; [reflexivity | split; [apply event_texts_text; auto | exact Hb]].
Qed.

Lemma parsed_events_app p a b : parsed_events p (a ++ b) = parsed_events p a ++ parsed_events p b.
Proof. induction a as [|d a IH]; simpl; auto. destruct (p d); simpl; rewrite IH; reflexivity. Qed.

Lemma prefix_chain_app prev a b :
  prefix_chain prev (a ++ b) = prefix_chain prev a && prefix_chain (last a prev) b.
Proof.
  revert prev. induction a as [|t a IH]; intros prev; [reflexivity|].
  cbn [app prefix_chain]. rewrite IH, last_cons_default, andb_assoc. reflexivity.
Qed.

Lemma forward_diffs_app prev a b :
  forward_diffs prev (a ++ b) = forward_diffs prev a ++ forward_diffs (last a prev) b.
Proof.
  revert prev. induction a as [|t a IH]; intros prev; [reflexivity|].
  cbn [app forward_diffs]. rewrite IH, last_cons_default. reflexivity.
Qed.


Lemma codex_stream_lines_general parse_event (lines : list string) :
  forall prev ts,
  event_texts (parsed_events parse_event (fst (stream_lines_payloads lines))) ts ->
  prefix_chain prev ts = true ->
  codex_stream_lines parse_event prev lines =
    (map content_chunk (filter nonempty_str (forward_diffs prev ts)) ++
       stop_if (snd (stream_lines_payloads lines)),
     if snd (stream_lines_payloads lines) then None else Some (last ts prev)).
Proof.
  induction lines as [|line lines IH]; intros prev ts Hev Hchain.
  - inversion Hev. reflexivity.
  - cbn [codex_stream_lines stream_lines_payloads] in *.
    destruct (sse_data line) as [data|]; [|apply IH; assumption].
    destruct (String.eqb_spec data "[DONE]").
    + inversion Hev. reflexivity.
    + destruct (stream_lines_payloads lines) as [ds d] eqn:Eds.
      cbn [fst snd parsed_events] in *.
      destruct (parse_event data) as [ev|] eqn:Ep.
      * inversion Hev as [|ev' evs ts' Hfree Hrest|ev' t evs ts' Hc Hrest]; subst.
        -- rewrite (text_free_event prev ev Hfree).
           rewrite (IH prev ts Hrest Hchain). reflexivity.
        -- simpl in Hchain. apply andb_true_iff in Hchain as [Hp Hchain].
           rewrite (codex_stream_event_carries prev t ev Hp Hc), (IH t ts' Hrest Hchain).
           rewrite last_cons_default. cbn [forward_diffs]. rewrite filter_nonempty_str_cons.
           destruct (String.eqb (js_slice t (String.length prev)) ""); reflexivity.
      * apply IH; assumption.
Qed.

Lemma codex_read_loop_general parse_event (reads : list string) :
  forall buffer prev ts,
  event_texts (parsed_events parse_event (fst (stream_read_payloads buffer reads))) ts ->
  prefix_chain prev ts = true ->
  codex_read_loop parse_event buffer prev reads =
    map content_chunk (filter nonempty_str (forward_diffs prev ts)) ++
      stop_if (snd (stream_read_payloads buffer reads)).
Proof.
  induction reads as [|value more IH]; intros buffer prev ts Hev Hchain.
  - inversion Hev. reflexivity.
  - cbn [codex_read_loop stream_read_payloads] in *.
    destruct (take_complete_lines (String.append buffer value)) as [lines buffer'].
    destruct (stream_lines_payloads lines) as [ds d] eqn:Eds.
    destruct d.
    + cbn [fst snd] in *.
      rewrite (codex_stream_lines_general parse_event lines prev ts); rewrite ?Eds; auto.
    + destruct (stream_read_payloads buffer' more) as [ds' d'] eqn:Emore.
      cbn [fst snd] in *. rewrite parsed_events_app in Hev.
      destruct (event_texts_app _ _ _ Hev) as (ts1 & ts2 & -> & Ha & Hb).
      rewrite prefix_chain_app in Hchain. apply andb_true_iff in Hchain as [Hc1 Hc2].
      rewrite (codex_stream_lines_general parse_event lines prev ts1); rewrite ?Eds; auto.
      cbn [snd stop_if]. rewrite app_nil_r.
      rewrite (IH buffer' (last ts1 prev) ts2); [|rewrite Emore; exact Hb | exact Hc2].
      rewrite Emore. cbn [snd].
      rewrite forward_diffs_app, filter_app, map_app, app_assoc. reflexivity.
Qed.

Lemma forward_diffs_concat (prev : string) (ts : list string) :
  prefix_chain prev ts = true ->
  String.append prev (fold_right String.append "" (filter nonempty_str (forward_diffs prev ts)))
    = last ts prev.
Proof.
  revert prev. induction ts as [|t ts IH]; intros prev Hchain.
  - apply string_append_empty_r.
  - simpl in Hchain. apply andb_true_iff in Hchain as [Hp Hchain].
    rewrite last_cons_default. cbn [forward_diffs]. rewrite filter_nonempty_str_cons.
    destruct (String.eqb_spec (js_slice t (String.length prev)) "") as [E|E]; simpl.
    + rewrite <- (prefix_slice_empty prev t Hp E) at 1. apply IH, Hchain.
    + rewrite string_append_assoc, <- (prefix_append_slice prev t Hp). apply IH, Hchain.
Qed.

Lemma concat_deltas_content_chunks (xs : list string) :
  concat_deltas (map content_chunk xs) = fold_right String.append "" xs.
Proof.
  unfold concat_deltas. induction xs as [|x xs IH]; [reflexivity|].
  simpl. rewrite IH. reflexivity.
Qed.

Lemma split_lines_line (l rest : string) :
  no_newline l = true ->
  split_lines (String.append l (String NEWLINE rest)) = l :: split_lines rest.
Proof.
  induction l as [|c l IH]; intros H.
  - reflexivity.
  - unfold no_newline in H. simpl in H. apply andb_true_iff in H as [Hc H].
    apply negb_true_iff in Hc. simpl. rewrite Hc, IH; [reflexivity | exact H].
Qed.

Lemma split_lines_body (lines : list string) :
  Forall (fun l => no_newline l = true) lines ->
  split_lines (stream_body lines) = lines ++ [""].
Proof.
  induction 1 as [|l lines Hl Hrest IH]; [reflexivity|].
  simpl. rewrite split_lines_line, IH; auto.
Qed.

Lemma take_complete_lines_body (lines : list string) :
  Forall (fun l => no_newline l = true) lines ->
  take_complete_lines (stream_body lines) = (lines, "").
Proof.
  intros H. unfold take_complete_lines. rewrite split_lines_body by exact H.
  rewrite removelast_last, last_last. reflexivity.
Qed.

Lemma concat_deltas_stop_if (xs : list string) (d : bool) :
  concat_deltas (map content_chunk xs ++ stop_if d) = fold_right String.append "" xs.
Proof.
  unfold concat_deltas. rewrite fold_right_app.
  assert (Hs : fold_right (fun c acc => String.append (chunk_text c) acc) "" (stop_if d) = "")
    by (destruct d; reflexivity).
  rewrite Hs. induction xs as [|x xs IH]; [reflexivity|]. simpl. rewrite IH. reflexivity.
Qed.

(** Claim C7. Take any upstream byte stream, cut into reads in any way, and
    say each event [parseCodexStream] parses from it (blank lines, non-data
    lines and payloads that fail to parse are skipped by the code) either
    carries one accumulated text or no text, the texts [ts] it carries each
    extending the one before. The chunks it yields are exactly the non-empty
    forward differences of each text against the text emitted before it,
    followed by the stop chunk when a [[DONE]] line ended the stream; so a
    text already emitted is never sent again, and the concatenation of the
    content deltas is the last accumulated text. *)
Theorem codex_stream_forward_diffs
  (parse_event : string -> option CodexEvent) (reads ts : list string)
  (Hev : event_texts (stream_events parse_event reads) ts)
  (Hchain : prefix_chain "" ts = true) :
  parseCodexStream parse_event reads =
    map content_chunk (filter nonempty_str (forward_diffs "" ts)) ++ stop_if (stream_done reads) /\
  concat_deltas (parseCodexStream parse_event reads) = last ts "".
Proof.
  assert (Hs : parseCodexStream parse_event reads =
               map content_chunk (filter nonempty_str (forward_diffs "" ts)) ++
                 stop_if (stream_done reads)).
  { exact (codex_read_loop_general parse_event reads "" "" ts Hev Hchain). }
  split; [exact Hs|].
  rewrite Hs, concat_deltas_stop_if.
  exact (forward_diffs_concat "" ts Hchain).
Qed.

Lemma codex_stream_forward_diffs_witness :
  parseCodexStream sample_parse_event sample_reads =
    [content_chunk "He"; content_chunk "llo"; content_chunk " world"; stop_chunk] /\
  concat_deltas (parseCodexStream sample_parse_event sample_reads) = "Hello world".
Proof.
  destruct (codex_stream_forward_diffs sample_parse_event sample_reads sample_texts)
    as [H1 H2].
  - unfold stream_events. vm_compute.
    apply event_texts_text; [constructor|].
    apply event_texts_skip; [reflexivity|].
    apply event_texts_text; [constructor|].
    apply event_texts_text; [constructor|].
    apply event_texts_text; [constructor|].
    constructor.
  - reflexivity.
  - split; [rewrite H1; vm_compute; reflexivity | exact H2].
Defined.

Lemma codex_response_stop_no_tools_witness :
  message_content (parseCodexResponse sample_parse_event sample_response_body "gpt-5.2") = None.
Proof.
  destruct (codex_response_stop_no_tools sample_parse_event sample_response_body "gpt-5.2")
    as [_ [_ H]].
  apply H. intros line data ev Hin Hd Hn Hp. vm_compute in Hin.
  destruct Hin as [<- | [<- | [<- | []]]]; vm_compute in Hd.
  - inversion Hd; subst. vm_compute in Hp. inversion Hp. reflexivity.
  - inversion Hd; subst. contradiction Hn. reflexivity.
  - discriminate.
Defined.

(** ** Antigravity adapter: schema cleaning *)

(** Claim C3 (counterexample). [cleanSchema] is not idempotent. On
    [proto_schema] the first pass copies ["__proto__"] with
    [result[key] = cleaned], which runs the prototype setter: the result has
    the own property [properties] only, and [{type: "string"}] as its
    prototype, so [result.type] is truthy and no [type] is added. The
    second pass copies the own properties only, finds no [type], and adds
    [type: "object"]. *)
Lemma cleanSchema_twice_differs :
  cleanSchema proto_schema =
    JObj [("properties", JObj [] None)] (Some (JObj [("type", JStr "string")] None)) /\
  cleanSchema (cleanSchema proto_schema) =
    JObj [("properties", JObj [] None); ("type", JStr "object")] None /\
  cleanSchema (cleanSchema proto_schema) <> cleanSchema proto_schema.
Proof.
  split; [|split]; vm_compute; [reflexivity | reflexivity | discriminate].
Qed.

(** ** Antigravity adapter: tool results in [convertMessages] *)









Lemma tool_call_ids_app (l1 l2 : list ChatMessage) :
  tool_call_ids (l1 ++ l2) = tool_call_ids l1 ++ tool_call_ids l2.
Proof. unfold tool_call_ids. apply flat_map_app. Qed.













(** ** Antigravity adapter: schema cleaning without ["__proto__"] entries *)

Section JsonInduction.

Variable P : json -> Prop.
Hypothesis HNull : P JNull.
Hypothesis HBool : forall b, P (JBool b).
Hypothesis HNum : forall n, P (JNum n).
Hypothesis HStr : forall s, P (JStr s).
Hypothesis HArr : forall xs, Forall P xs -> P (JArr xs).
Hypothesis HObj : forall props proto, Forall (fun kv => P (snd kv)) props -> P (JObj props proto).

Lemma json_nested_ind : forall j, P j.
Proof.
  fix IH 1. intros [| b | n | s | xs | props proto].
  - exact HNull.
  - apply HBool.
  - apply HNum.
  - apply HStr.
  - apply HArr.
    exact ((fix go (l : list json) : Forall P l :=
              match l with
              | [] => Forall_nil _
              | x :: r => Forall_cons x (IH x) (go r)
              end) xs).
  - apply HObj.
    exact ((fix go (l : list (string * json)) : Forall (fun kv => P (snd kv)) l :=
              match l with
              | [] => Forall_nil _
              | (k, v) :: r => Forall_cons (k, v) (IH v) (go r)
              end) props).
Qed.

End JsonInduction.

Lemma cleanSchema_JObj (props : list (string * json)) (proto : option json) :
  cleanSchema (JObj props proto) = schema_result (fold_left (clean_entry cleanSchema) props ([], None)).
Proof. reflexivity. Qed.

Lemma cleanSchema_JArr (xs : list json) :
  cleanSchema (JArr xs) = JArr (filter js_truthy (map cleanSchema xs)).
Proof. reflexivity. Qed.

Lemma cleanSchema_object_truthy (j : json) :
  js_truthy j && is_js_object j = true -> js_truthy (cleanSchema j) && is_js_object (cleanSchema j) = true.
Proof.
  destruct j as [| [|] | | | xs | props proto]; simpl; try discriminate; auto.
Qed.

(** Own-property lists as the first cleaning pass leaves them: no key twice,
    no key the cleaner skips or ["__proto__"], and every object value
    already cleaned. *)
Definition clean_props (R : list (string * json)) : Prop :=
  NoDup (map fst R) /\
  Forall (fun kv => skipped_key (fst kv) = false /\ fst kv <> "__proto__" /\
                    (js_truthy (snd kv) && is_js_object (snd kv) = true ->
                     cleanSchema (snd kv) = snd kv)) R.

Lemma get_own_set_own (R : list (string * json)) (k k' : string) (v : json) :
  get_own (set_own R k v) k' = if String.eqb k k' then Some v else get_own R k'.
Proof.
  induction R as [|[k0 v0] R IH]; simpl.
  - destruct (String.eqb k k'); reflexivity.
  - destruct (String.eqb_spec k0 k) as [->|Hne]; simpl.
    + destruct (String.eqb k k'); reflexivity.
    + rewrite IH. destruct (String.eqb_spec k0 k') as [->|]; auto.
      destruct (String.eqb_spec k k') as [->|]; [contradiction|reflexivity].
Qed.

Lemma keys_set_own (R : list (string * json)) (k x : string) (v : json) :
  In x (map fst (set_own R k v)) <-> x = k \/ In x (map fst R).
Proof.
  induction R as [|[k0 v0] R IH]; simpl.
  - intuition.
  - destruct (String.eqb_spec k0 k) as [->|Hne]; simpl; [intuition|].
    rewrite IH. intuition.
Qed.

Lemma set_own_fresh (R : list (string * json)) (k : string) (v : json) :
  ~ In k (map fst R) -> set_own R k v = R ++ [(k, v)].
Proof.
  induction R as [|[k0 v0] R IH]; simpl; intros H; auto.
  destruct (String.eqb_spec k0 k) as [->|Hne]; [exfalso; apply H; left; reflexivity|].
  rewrite IH; auto.
Qed.

Lemma set_own_clean (R : list (string * json)) (k : string) (v : json) :
  clean_props R -> skipped_key k = false -> k <> "__proto__" ->
  (js_truthy v && is_js_object v = true -> cleanSchema v = v) ->
  clean_props (set_own R k v).
Proof.
  intros [Hnd Hall] Hk Hp Hv. induction R as [|[k0 v0] R IH]; simpl.
  - split; repeat constructor; auto.
  - inversion Hnd as [|? ? Hnin Hnd']; subst. inversion Hall as [|? ? H0 Hall']; subst.
    destruct (String.eqb_spec k0 k) as [->|Hne].
    + split; [exact Hnd | constructor; auto].
    + destruct (IH Hnd' Hall') as [Hnd2 Hall2]. split.
      * simpl. constructor; auto. rewrite keys_set_own. intuition.
      * constructor; auto.
Qed.

Lemma js_set_noproto (A : list (string * json)) (p : option json) (k : string) (v : json) :
  k <> "__proto__" -> js_set (A, p) k v = (set_own A k v, p).
Proof.
  intros Hk. unfold js_set. destruct (String.eqb_spec k "__proto__"); [contradiction|reflexivity].
Qed.

Lemma clean_entry_first_step (A : list (string * json)) (k : string) (v : json) :
  clean_props A -> k <> "__proto__" ->
  (cleanSchema (cleanSchema v) = cleanSchema v) ->
  exists A', clean_entry cleanSchema (A, None) (k, v) = (A', None) /\ clean_props A'.
Proof.
  intros HA Hk Hv. unfold clean_entry.
  destruct (skipped_key k) eqn:Hs; [exists A; split; auto|].
  destruct (js_truthy v && is_js_object v) eqn:Ho.
  - pose proof (cleanSchema_object_truthy v Ho) as Hc.
    destruct (cleanSchema v) eqn:Ec; try discriminate;
      rewrite js_set_noproto by exact Hk; eexists; split; try reflexivity;
      apply set_own_clean; auto; intros _; exact Hv.
  - rewrite js_set_noproto by exact Hk. eexists; split; [reflexivity|].
    apply set_own_clean; auto. intros H; rewrite H in Ho; discriminate.
Qed.

(** The first pass: from a clean accumulator without prototype, an entry
    list without ["__proto__"] keys whose values the cleaner leaves fixed
    after one pass gives a clean list, still without prototype. *)
Lemma fold_clean_entry_first (props : list (string * json)) (A : list (string * json)) :
  Forall (fun kv => no_proto_key (snd kv) = true ->
                    cleanSchema (cleanSchema (snd kv)) = cleanSchema (snd kv)) props ->
  forallb (fun kv => negb (String.eqb (fst kv) "__proto__") && no_proto_key (snd kv)) props = true ->
  clean_props A ->
  snd (fold_left (clean_entry cleanSchema) props (A, None)) = None /\
  clean_props (fst (fold_left (clean_entry cleanSchema) props (A, None))).
Proof.
  revert A. induction props as [|[k v] props IHp]; intros A Hih Hnp HA;
    [simpl; auto | cbn [fold_left]].
  inversion Hih as [|? ? Hv Hih']; subst. simpl in Hnp.
  apply andb_true_iff in Hnp as [Hkv Hnp]. apply andb_true_iff in Hkv as [Hk Hnv].
  apply negb_true_iff in Hk. apply String.eqb_neq in Hk.
  destruct (clean_entry_first_step A k v HA Hk (Hv Hnv)) as [A' [E HA']].
  rewrite E. apply IHp; auto.
Qed.

Lemma clean_entry_fixed_step (A : list (string * json)) (k : string) (v : json) :
  skipped_key k = false -> k <> "__proto__" ->
  (js_truthy v && is_js_object v = true -> cleanSchema v = v) -> ~ In k (map fst A) ->
  clean_entry cleanSchema (A, None) (k, v) = (A ++ [(k, v)], None).
Proof.
  intros Hs Hk Hv Hfresh. unfold clean_entry. rewrite Hs.
  destruct (js_truthy v && is_js_object v) eqn:Ho.
  - rewrite (Hv eq_refl).
    destruct v; try discriminate; rewrite js_set_noproto, set_own_fresh by assumption;
      reflexivity.
  - rewrite js_set_noproto, set_own_fresh by assumption. reflexivity.
Qed.

(** The second pass over a clean list copies it unchanged. *)
Lemma fold_clean_entry_fixed (R A : list (string * json)) :
  clean_props R -> (forall k, In k (map fst R) -> ~ In k (map fst A)) ->
  fold_left (clean_entry cleanSchema) R (A, None) = (A ++ R, None).
Proof.
  revert A. induction R as [|[k v] R IH]; intros A [Hnd Hall] Hdis;
    [simpl; rewrite app_nil_r; reflexivity | cbn [fold_left]].
  inversion Hnd as [|? ? Hnin Hnd']; subst. inversion Hall as [|? ? [Hs [Hk Hv]] Hall']; subst.
  simpl in Hs, Hk, Hv.
  rewrite clean_entry_fixed_step by (auto; apply Hdis; left; reflexivity).
  rewrite IH.
  - rewrite <- app_assoc. reflexivity.
  - split; assumption.
  - intros k' Hin Hin'. rewrite map_app, in_app_iff in Hin'. destruct Hin' as [Hin'|[Heq|[]]].
    + apply (Hdis k'); [right; exact Hin | exact Hin'].
    + simpl in Heq. subst k'. contradiction.
Qed.

Lemma js_get_noproto (R : list (string * json)) (k : string) :
  js_get (JObj R None) k = get_own R k.
Proof. simpl. destruct (get_own R k); reflexivity. Qed.

Lemma map_fixed_in {A} (f : A -> A) (l : list A) :
  (forall x, In x l -> f x = x) -> map f l = l.
Proof.
  induction l as [|x l IH]; intros H; simpl; auto.
  rewrite (H x (or_introl eq_refl)), IH; [reflexivity|].
  intros y Hy. apply H. right. exact Hy.
Qed.

Lemma filter_idem {A} (f : A -> bool) (l : list A) : filter f (filter f l) = filter f l.
Proof.
  induction l as [|x l IH]; simpl; auto.
  destruct (f x) eqn:E; simpl; [rewrite E, IH|]; auto.
Qed.

Lemma cleanSchema_idempotent_no_proto (s : json) :
  no_proto_key s = true -> cleanSchema (cleanSchema s) = cleanSchema s.
Proof.
  induction s as [ | b | n | str | xs IH | props proto IH ] using json_nested_ind;
    intros Hnp; try reflexivity.
  - rewrite !cleanSchema_JArr. f_equal.
    assert (Hmap : map cleanSchema (filter js_truthy (map cleanSchema xs)) =
                   filter js_truthy (map cleanSchema xs)).
    { apply map_fixed_in. intros y Hy. apply filter_In in Hy as [Hy _].
      apply in_map_iff in Hy as [x [<- Hx]].
      rewrite Forall_forall in IH. apply IH; auto.
      simpl in Hnp. rewrite forallb_forall in Hnp. apply Hnp, Hx. }
    rewrite Hmap. apply filter_idem.
  - simpl in Hnp.
    destruct (fold_clean_entry_first props [] IH Hnp (conj (NoDup_nil _) (Forall_nil _)))
      as [Hproto Hclean].
    rewrite cleanSchema_JObj.
    destruct (fold_left (clean_entry cleanSchema) props ([], None)) as [R0 p0].
    simpl in Hproto, Hclean. subst p0.
    unfold schema_result. cbn [fst snd]. rewrite !js_get_noproto.
    destruct (js_truthy_opt (get_own R0 "properties") &&
              negb (js_truthy_opt (get_own R0 "type")))%bool eqn:Hfix.
    + rewrite js_set_noproto by discriminate. cbn [fst snd].
      rewrite cleanSchema_JObj.
      rewrite fold_clean_entry_fixed; [| apply set_own_clean; auto; discriminate | simpl; auto].
      unfold schema_result. cbn [fst snd app]. rewrite !js_get_noproto, !get_own_set_own.
      simpl. rewrite andb_false_r. reflexivity.
    + cbn [fst snd]. rewrite cleanSchema_JObj.
      rewrite fold_clean_entry_fixed; [| exact Hclean | simpl; auto].
      unfold schema_result. cbn [fst snd app]. rewrite !js_get_noproto, Hfix. reflexivity.
Qed.

Lemma cleanSchema_idempotent_no_proto_witness :
  let s := JObj [("properties", JObj [("q", JObj [("type", JStr "string");
                                                 ("format", JStr "email")] None)] None);
                 ("additionalProperties", JBool false)] None in
  cleanSchema (cleanSchema s) = cleanSchema s.
Proof. intros s. apply cleanSchema_idempotent_no_proto. reflexivity. Defined.

(** ** Antigravity adapter: shape of the cleaned schema *)

Lemma forallb_set_own (f : string * json -> bool) (R : list (string * json)) (k : string) (v : json) :
  forallb f R = true -> f (k, v) = true -> forallb f (set_own R k v) = true.
Proof.
  induction R as [|[k0 v0] R IH]; simpl; intros HR Hkv.
  - rewrite Hkv. reflexivity.
  - apply andb_true_iff in HR as [H0 HR].
    destruct (String.eqb k0 k); simpl; rewrite ?Hkv, ?H0, ?HR, ?IH; auto.
Qed.

(** The accumulator of [cleanSchema]'s loop holds only clean entries and, if
    any, a clean prototype. *)
Lemma js_set_schema_clean (props : list (string * json)) (proto : option json) (k : string) (v : json) :
  forallb (fun kv => negb (skipped_key (fst kv)) && schema_clean (snd kv)) props = true ->
  match proto with Some p => schema_clean p | None => true end = true ->
  skipped_key k = false -> schema_clean v = true ->
  let r := js_set (props, proto) k v in
  forallb (fun kv => negb (skipped_key (fst kv)) && schema_clean (snd kv)) (fst r) = true /\
  match snd r with Some p => schema_clean p | None => true end = true.
Proof.
  intros Hp Hq Hk Hv. unfold js_set. destruct (String.eqb k "__proto__").
  - destruct v; simpl; auto.
  - simpl. split; auto. apply forallb_set_own; auto. simpl. rewrite Hk, Hv. reflexivity.
Qed.

Lemma clean_entry_schema_clean (A : list (string * json)) (p : option json) (k : string) (v : json) :
  schema_clean (cleanSchema v) = true ->
  forallb (fun kv => negb (skipped_key (fst kv)) && schema_clean (snd kv)) A = true ->
  match p with Some q => schema_clean q | None => true end = true ->
  let r := clean_entry cleanSchema (A, p) (k, v) in
  forallb (fun kv => negb (skipped_key (fst kv)) && schema_clean (snd kv)) (fst r) = true /\
  match snd r with Some q => schema_clean q | None => true end = true.
Proof.
  intros Hv HA Hp. unfold clean_entry.
  destruct (skipped_key k) eqn:Hs; [split; assumption|].
  destruct (js_truthy v && is_js_object v) eqn:Ho.
  - destruct (cleanSchema v) eqn:Ec; try (split; assumption);
      apply js_set_schema_clean; assumption.
  - apply js_set_schema_clean; try assumption.
    destruct v; try reflexivity; discriminate.
Qed.

Lemma fold_clean_entry_schema_clean (props : list (string * json))
  (acc : list (string * json) * option json) :
  Forall (fun kv => schema_clean (cleanSchema (snd kv)) = true) props ->
  forallb (fun kv => negb (skipped_key (fst kv)) && schema_clean (snd kv)) (fst acc) = true ->
  match snd acc with Some p => schema_clean p | None => true end = true ->
  let r := fold_left (clean_entry cleanSchema) props acc in
  forallb (fun kv => negb (skipped_key (fst kv)) && schema_clean (snd kv)) (fst r) = true /\
  match snd r with Some p => schema_clean p | None => true end = true.
Proof.
  revert acc. induction props as [|[k v] props IH]; intros [A p] Hall HA Hp; [simpl; auto|].
  inversion Hall as [|? ? Hv Hall']; subst. cbn [fold_left].
  destruct (clean_entry_schema_clean A p k v Hv HA Hp) as [H1 H2].
  destruct (clean_entry cleanSchema (A, p) (k, v)). apply IH; auto.
Qed.

Lemma cleanSchema_clean_shape (s : json) : schema_clean (cleanSchema s) = true.
Proof.
  induction s as [ | b | n | str | xs IH | props proto IH ] using json_nested_ind;
    try reflexivity.
  - rewrite cleanSchema_JArr. cbn [schema_clean]. apply andb_true_intro. split.
    + apply forallb_forall. intros x Hx. apply filter_In in Hx as [_ Hx]. exact Hx.
    + apply forallb_forall. intros x Hx. apply filter_In in Hx as [Hx _].
      apply in_map_iff in Hx as [y [<- Hy]]. rewrite Forall_forall in IH. apply IH, Hy.
  - rewrite cleanSchema_JObj.
    destruct (fold_clean_entry_schema_clean props ([], None) IH eq_refl eq_refl) as [H1 H2].
    destruct (fold_left (clean_entry cleanSchema) props ([], None)) as [R p].
    cbn [fst snd] in H1, H2. unfold schema_result. cbn [fst snd].
    destruct (js_truthy_opt (js_get (JObj R p) "properties") &&
              negb (js_truthy_opt (js_get (JObj R p) "type")))%bool eqn:Hfix.
    + rewrite js_set_noproto by discriminate. cbn [fst snd schema_clean].
      rewrite (forallb_set_own _ R "type" (JStr "object") H1 eq_refl), H2.
      cbn [js_get]. rewrite !get_own_set_own. simpl. rewrite orb_true_r. reflexivity.
    + cbn [schema_clean fst snd]. rewrite H1, H2. cbn [andb]. simpl andb.
      apply andb_false_iff in Hfix as [Hf|Hf]; [rewrite Hf; reflexivity|].
      apply negb_false_iff in Hf. rewrite Hf, orb_true_r. reflexivity.
Qed.

(** Every value [cleanSchema] returns has the cleaned shape: at no depth
    does an object (own entries or installed prototype) keep a key that
    starts with ["$"] or is in [UNSUPPORTED_SCHEMA_FIELDS]; no array keeps
    a falsy item; and every object whose [properties] is truthy has a
    truthy [type]. *)
Theorem cleanSchema_output_clean (s : json) : schema_clean (cleanSchema s) = true.
Proof. apply cleanSchema_clean_shape. Qed.

(** ** Antigravity adapter: turns and system instruction of [convertMessages] *)

Lemma convert_step_turns_nonempty json_parse tr st m :
  Forall (fun c => ac_parts c <> []) (cs_contents st) ->
  Forall (fun c => ac_parts c <> []) (cs_contents (convert_step json_parse tr st m)).
Proof.
  intros H. unfold convert_step.
  destruct (msg_role m); try exact H;
  destruct (cs_pending st) as [|pd0 pds]; cbv zeta;
  repeat match goal with
  | |- context [match ?l with [] => _ | _ :: _ => _ end] => destruct l eqn:?
  end;
  cbn [cs_contents];
  repeat (apply Forall_app; split); try assumption; repeat constructor; simpl; try discriminate.
Qed.

(** [convertMessages] never emits a turn without parts: each content it
    returns has a non-empty [parts] list. *)
Theorem convertMessages_turns_nonempty (json_parse : string -> option json)
  (messages : list ChatMessage) :
  Forall (fun c => ac_parts c <> []) (fst (convertMessages json_parse messages)).
Proof.
  unfold convertMessages.
  set (tr := collect_tool_responses json_parse messages).
  pose proof (fold_left_invariant (fun st => Forall (fun c => ac_parts c <> []) (cs_contents st))
                (convert_step json_parse tr) messages (mkConvState [] None [])
                (convert_step_turns_nonempty json_parse tr) (Forall_nil _)) as H.
  destruct (fold_left (convert_step json_parse tr) messages (mkConvState [] None [])) as [c s p].
  cbn [cs_contents cs_pending cs_system] in *. destruct p as [|x p]; [exact H|].
  cbn [fst]. apply Forall_app. split; [exact H|]. constructor; [discriminate | constructor].
Qed.

Lemma convert_step_proj json_parse tr st1 st2 m :
  cs_contents st1 = cs_contents st2 -> cs_pending st1 = cs_pending st2 ->
  cs_contents (convert_step json_parse tr st1 m) = cs_contents (convert_step json_parse tr st2 m) /\
  cs_pending (convert_step json_parse tr st1 m) = cs_pending (convert_step json_parse tr st2 m).
Proof.
  destruct st1 as [c1 s1 p1], st2 as [c2 s2 p2]; cbn [cs_contents cs_pending]; intros -> ->.
  unfold convert_step. destruct (msg_role m); cbn [cs_contents cs_pending]; auto;
  destruct p2; cbv zeta; cbn [cs_contents cs_pending];
  repeat match goal with
  | |- context [match ?l with [] => _ | _ :: _ => _ end] => destruct l eqn:?
  end; auto.
Qed.

Lemma convert_step_system json_parse tr st m :
  is_system m = true ->
  cs_contents (convert_step json_parse tr st m) = cs_contents st /\
  cs_pending (convert_step json_parse tr st m) = cs_pending st /\
  cs_system (convert_step json_parse tr st m) =
    Some (match cs_system st with
          | Some t => String.append t (String.append NL2 (system_text (msg_content_of m)))
          | None => system_text (msg_content_of m)
          end).
Proof.
  unfold is_system, convert_step. destruct (msg_role m); try discriminate. intros _. auto.
Qed.

Lemma convert_step_non_system json_parse tr st m :
  is_system m = false -> cs_system (convert_step json_parse tr st m) = cs_system st.
Proof.
  unfold is_system, convert_step. destruct (msg_role m); try discriminate; intros _; auto;
  destruct (cs_pending st); cbv zeta;
  repeat match goal with
  | |- context [match ?l with [] => _ | _ :: _ => _ end] => destruct l eqn:?
  end; reflexivity.
Qed.

Lemma fold_convert_drop_system json_parse tr (l : list ChatMessage) st1 st2 :
  cs_contents st1 = cs_contents st2 -> cs_pending st1 = cs_pending st2 ->
  cs_contents (fold_left (convert_step json_parse tr) l st1) =
    cs_contents (fold_left (convert_step json_parse tr) (filter (fun m => negb (is_system m)) l) st2) /\
  cs_pending (fold_left (convert_step json_parse tr) l st1) =
    cs_pending (fold_left (convert_step json_parse tr) (filter (fun m => negb (is_system m)) l) st2).
Proof.
  revert st1 st2. induction l as [|m l IH]; intros st1 st2 Hc Hp; [simpl; auto|].
  cbn [fold_left filter]. destruct (is_system m) eqn:Es; cbn [negb].
  - destruct (convert_step_system json_parse tr st1 m Es) as [Hc' [Hp' _]].
    apply IH; congruence.
  - cbn [fold_left]. destruct (convert_step_proj json_parse tr st1 st2 m Hc Hp) as [Hc' Hp'].
    apply IH; assumption.
Qed.

Lemma fold_convert_system json_parse tr (l : list ChatMessage) st :
  cs_system (fold_left (convert_step json_parse tr) l st) =
  fold_left (fun acc t => Some (match acc with
                                | Some a => String.append a (String.append NL2 t)
                                | None => t
                                end)) (system_texts l) (cs_system st).
Proof.
  revert st. induction l as [|m l IH]; intros st; [reflexivity|].
  cbn [fold_left]. rewrite IH. unfold system_texts. cbn [filter].
  destruct (is_system m) eqn:Es.
  - destruct (convert_step_system json_parse tr st m Es) as [_ [_ Hs]]. rewrite Hs. reflexivity.
  - rewrite (convert_step_non_system json_parse tr st m Es). reflexivity.
Qed.

Lemma fold_system_join (ts : list string) (a : string) :
  fold_left (fun acc t => Some (match acc with
                                | Some a => String.append a (String.append NL2 t)
                                | None => t
                                end)) ts (Some a) = Some (String.concat NL2 (a :: ts)).
Proof.
  revert a. induction ts as [|t ts IH]; intros a; [reflexivity|].
  cbn [fold_left]. rewrite IH. f_equal.
  destruct ts as [|t' ts]; [reflexivity|].
  change (String.concat NL2 (String.append a (String.append NL2 t) :: t' :: ts))
    with (String.append (String.append a (String.append NL2 t)) (String.append NL2 (String.concat NL2 (t' :: ts)))).
  change (String.concat NL2 (a :: t :: t' :: ts))
    with (String.append a (String.append NL2 (String.append t (String.append NL2 (String.concat NL2 (t' :: ts)))))).
  rewrite !string_append_assoc. reflexivity.
Qed.

Lemma fold_collect_drop_system json_parse (l : list ChatMessage) (a : ToolResponses) :
  fold_left (collect_step json_parse) (filter (fun m => negb (is_system m)) l) a =
  fold_left (collect_step json_parse) l a.
Proof.
  revert a. induction l as [|m l IH]; intros a; [reflexivity|].
  cbn [filter fold_left]. destruct (is_system m) eqn:Es; cbn [negb fold_left]; rewrite IH; auto.
  unfold is_system in Es. unfold collect_step. destruct (msg_role m); try discriminate. reflexivity.
Qed.

(** System messages of the conversation only make the system instruction:
    their texts, in order, joined with a blank line (["\n\n"]), or none when
    there is no system message. The contents are those of the conversation
    without its system messages. *)
Theorem convertMessages_system_instruction (json_parse : string -> option json)
  (messages : list ChatMessage) :
  convertMessages json_parse messages =
  (fst (convertMessages json_parse (filter (fun m => negb (is_system m)) messages)),
   match system_texts messages with [] => None | ts => Some (String.concat NL2 ts) end).
Proof.
  unfold convertMessages, collect_tool_responses. rewrite fold_collect_drop_system.
  set (tr := fold_left (collect_step json_parse) messages []).
  destruct (fold_convert_drop_system json_parse tr messages (mkConvState [] None []) (mkConvState [] None [])
              eq_refl eq_refl) as [Hc Hp].
  pose proof (fold_convert_system json_parse tr messages (mkConvState [] None [])) as Hs.
  set (A := fold_left (convert_step json_parse tr) messages (mkConvState [] None [])) in *.
  set (B := fold_left (convert_step json_parse tr) (filter (fun m => negb (is_system m)) messages)
              (mkConvState [] None [])) in *.
  assert (Hsys : cs_system A = match system_texts messages with [] => None | ts => Some (String.concat NL2 ts) end).
  { rewrite Hs. cbn [cs_system]. destruct (system_texts messages) as [|t ts]; [reflexivity|].
    cbn [fold_left]. apply fold_system_join. }
  rewrite <- Hsys, <- Hc, <- Hp. destruct (cs_pending A); reflexivity.
Qed.


(** ** Codex adapter: instructions and tool history of the request *)

Lemma fold_responses_instructions (l : list ChatMessage) (i : option string) (inp : list ResponsesItem) :
  fst (fold_left responses_step l (i, inp)) =
  fold_left (fun acc t => Some (match opt_truthy_str acc with
                                | Some a => String.append a (String.append NL2 t)
                                | None => t
                                end)) (system_texts l) i.
Proof.
  revert i inp. induction l as [|m l IH]; intros i inp; [reflexivity|].
  cbn [fold_left]. unfold system_texts. cbn [filter]. unfold is_system.
  destruct (msg_role m) eqn:Er; cbn [role_eqb map fold_left].
  - unfold responses_step at 2. rewrite Er. apply IH.
  - unfold responses_step at 2. rewrite Er. cbv zeta.
    destruct (String.eqb (system_text (msg_content_of m)) ""); apply IH.
  - unfold responses_step at 2. rewrite Er. cbv zeta.
    destruct (String.eqb (system_text (msg_content_of m)) ""); apply IH.
  - unfold responses_step at 2. rewrite Er. apply IH.
Qed.

Lemma opt_truthy_str_some (a : string) : a <> "" -> opt_truthy_str (Some a) = Some a.
Proof. intros Ha. unfold opt_truthy_str. destruct (String.eqb_spec a ""); congruence. Qed.

Lemma codex_instructions_join (ts : list string) (a : string) :
  a <> "" ->
  fold_left (fun acc t => Some (match opt_truthy_str acc with
                                | Some a => String.append a (String.append NL2 t)
                                | None => t
                                end)) ts (Some a) = Some (String.concat NL2 (a :: ts)).
Proof.
  revert a. induction ts as [|t ts IH]; intros a Ha; [reflexivity|].
  cbn [fold_left]. rewrite (opt_truthy_str_some a Ha).
  rewrite IH by (destruct a; [contradiction | discriminate]). f_equal.
  destruct ts as [|t' ts]; [reflexivity|].
  change (String.concat NL2 (String.append a (String.append NL2 t) :: t' :: ts))
    with (String.append (String.append a (String.append NL2 t)) (String.append NL2 (String.concat NL2 (t' :: ts)))).
  change (String.concat NL2 (a :: t :: t' :: ts))
    with (String.append a (String.append NL2 (String.append t (String.append NL2 (String.concat NL2 (t' :: ts)))))).
  rewrite !string_append_assoc. reflexivity.
Qed.

Lemma codex_instructions_from_none (ts : list string) :
  ts <> [] ->
  fold_left (fun acc t => Some (match opt_truthy_str acc with
                                | Some a => String.append a (String.append NL2 t)
                                | None => t
                                end)) ts None = Some (String.concat NL2 (drop_leading_empty ts)).
Proof.
  induction ts as [|t ts IH]; intros Hne; [contradiction|].
  cbn [fold_left drop_leading_empty]. change (opt_truthy_str None) with (@None string).
  destruct (String.eqb_spec t "") as [->|Ht].
  - destruct ts as [|t' ts]; [reflexivity|].
    cbn [fold_left]. change (opt_truthy_str (Some "")) with (@None string).
    rewrite <- IH by discriminate. reflexivity.
  - apply codex_instructions_join. exact Ht.
Qed.

(** The Codex adapter's instructions: [None] without a system message;
    otherwise the system texts joined with a blank line (["\n\n"]), except
    that the leading empty ones are dropped (an empty accumulated text is
    falsy, so the next system text replaces it). *)
Theorem convertToResponsesFormat_instructions (messages : list ChatMessage)
  (tools : option (list Tool)) :
  rf_instructions (convertToResponsesFormat messages tools) =
  match system_texts messages with
  | [] => None
  | ts => Some (String.concat NL2 (drop_leading_empty ts))
  end.
Proof.
  unfold convertToResponsesFormat.
  pose proof (fold_responses_instructions messages None []) as H.
  destruct (fold_left responses_step messages (None, [])) as [i inp]. cbn [fst] in H.
  cbn [rf_instructions]. rewrite H.
  destruct (system_texts messages) as [|t ts] eqn:E; [reflexivity|].
  apply codex_instructions_from_none. discriminate.
Qed.

Lemma fold_responses_strip (l : list ChatMessage) (acc : option string * list ResponsesItem) :
  fold_left responses_step (strip_tool_history l) acc = fold_left responses_step l acc.
Proof.
  revert acc. induction l as [|m l IH]; intros acc; [reflexivity|].
  unfold strip_tool_history in *. cbn [filter].
  destruct (msg_role m) eqn:Er; cbn [role_eqb negb map fold_left]; rewrite IH;
    f_equal; unfold responses_step; destruct acc; cbn [msg_role msg_content_of]; rewrite ?Er;
    reflexivity.
Qed.

(** The Codex request never carries tool history: the body [callCodex]
    builds for a conversation is the one it builds after removing the
    [tool] messages and erasing the tool calls, tool-call ids and names of
    the other messages. *)
Theorem callCodex_drops_tool_history (sessionToken : option string) (model : ModelConfig)
  (messages : list ChatMessage) (tools : option (list Tool)) (options : CallOptions) :
  callCodex sessionToken model messages tools options =
  callCodex sessionToken model (strip_tool_history messages) tools options.
Proof.
  unfold callCodex, convertToResponsesFormat. rewrite fold_responses_strip. reflexivity.
Qed.

(** ** Antigravity adapter: [parseAntigravityResponse] against the stream *)

Lemma concat_deltas_app (a b : list Chunk) :
  concat_deltas (a ++ b) = String.append (concat_deltas a) (concat_deltas b).
Proof.
  induction a as [|c a IH]; [reflexivity|].
  cbn [app concat_deltas fold_right]. unfold concat_deltas in IH |- *.
  cbn [fold_right]. rewrite IH. apply string_append_assoc.
Qed.

Lemma fold_ag_response_part (parts : list AgPartIn) (t : string) (tcs : list DeltaToolCall) :
  fold_left ag_response_part parts (t, tcs) =
  (String.append t (concat_deltas (flat_map ag_part_chunks parts)),
   (tcs ++ chunk_tool_calls (flat_map ag_part_chunks parts))%list).
Proof.
  revert t tcs. induction parts as [|p parts IH]; intros t tcs.
  - cbn. rewrite string_append_empty_r, app_nil_r. reflexivity.
  - cbn [fold_left flat_map]. unfold ag_response_part at 2. rewrite IH.
    unfold chunk_tool_calls. rewrite concat_deltas_app, flat_map_app.
    generalize (flat_map ag_part_chunks parts) as rest; intros rest.
    unfold ag_part_chunks.
    destruct (opt_truthy_str (pin_text p)) as [s|];
      [destruct (pin_thought p) as [[|]|]|];
      destruct (pin_functionCall p) as [[[name args] id]|]; cbn;
      rewrite ?string_append_empty_r, ?string_append_assoc, <- ?app_assoc; reflexivity.
Qed.

(** The non-streaming Antigravity response holds what the stream writes for
    the same upstream response: its content is the concatenation of the text
    deltas the stream emits for the parts of the first candidate ([null] when
    empty), and its tool calls are the stream's tool-call deltas, in order
    ([undefined] when there are none). *)
Theorem parseAntigravityResponse_matches_stream (r : AgResponse) (u : option AgUsage)
  (model : string) :
  let cs := flat_map ag_part_chunks (first_candidate_parts r) in
  agapi_content (parseAntigravityResponse (mkAntigravityResponse r u) model) =
    (if String.eqb (concat_deltas cs) "" then None else Some (concat_deltas cs)) /\
  agapi_tool_calls (parseAntigravityResponse (mkAntigravityResponse r u) model) =
    match chunk_tool_calls cs with [] => None | l => Some l end.
Proof.
  cbv zeta. unfold parseAntigravityResponse. cbn [agr_response].
  rewrite fold_ag_response_part. cbn. split; [reflexivity|].
  destruct (chunk_tool_calls _); reflexivity.
Qed.

Lemma chunk_tool_calls_parts_nil (parts : list AgPartIn) :
  chunk_tool_calls (flat_map ag_part_chunks parts) = [] <->
  existsb has_function_call parts = false.
Proof.
  induction parts as [|p parts IH]; [cbn; tauto|].
  cbn [flat_map existsb]. unfold chunk_tool_calls in *. rewrite flat_map_app.
  unfold ag_part_chunks, has_function_call.
  destruct (opt_truthy_str (pin_text p)) as [s|];
    [destruct (pin_thought p) as [[|]|]|];
    destruct (pin_functionCall p) as [[[name args] id]|]; cbn; try tauto;
    split; intros H; discriminate.
Qed.

(** The finish reason of the non-streaming Antigravity response is one of
    ["stop"], ["length"] and ["tool_calls"]: ["length"] exactly when the
    first candidate stopped on ["MAX_TOKENS"], and ["tool_calls"] exactly
    when it stopped for another reason than ["STOP"] or ["MAX_TOKENS"] (or
    gave none) and one of its parts is a function call. *)
Theorem parseAntigravityResponse_finish_reason (r : AgResponse) (u : option AgUsage)
  (model : string) :
  let fr := match first_candidate r with Some c => cand_finishReason c | None => None end in
  let f := agapi_finish_reason (parseAntigravityResponse (mkAntigravityResponse r u) model) in
  (f = "stop" \/ f = "length" \/ f = "tool_calls") /\
  (f = "length" <-> fr = Some "MAX_TOKENS") /\
  (f = "tool_calls" <->
     fr <> Some "STOP" /\ fr <> Some "MAX_TOKENS" /\
     existsb has_function_call (first_candidate_parts r) = true).
Proof.
  cbv zeta. unfold parseAntigravityResponse. cbn [agr_response].
  rewrite fold_ag_response_part. cbn [agapi_finish_reason].
  pose proof (chunk_tool_calls_parts_nil (first_candidate_parts r)) as Hnil.
  assert (Hby : forall tcs : list DeltaToolCall,
            (tcs = [] <-> existsb has_function_call (first_candidate_parts r) = false) ->
            (match tcs with [] => "stop" | _ => "tool_calls" end = "tool_calls" <->
             existsb has_function_call (first_candidate_parts r) = true) /\
            match tcs with [] => "stop" | _ => "tool_calls" end <> "length" /\
            (match tcs with [] => "stop" | _ => "tool_calls" end = "stop" \/
             match tcs with [] => "stop" | _ => "tool_calls" end = "tool_calls")).
  { intros [|d tcs] H.
    - destruct H as [H _]. rewrite (H eq_refl). split; [split; discriminate|].
      split; [discriminate|left; reflexivity].
    - destruct (existsb has_function_call (first_candidate_parts r)).
      + split; [tauto|]. split; [discriminate|right; reflexivity].
      + destruct H as [_ H]. specialize (H eq_refl). discriminate. }
  specialize (Hby _ Hnil). cbn [app]. destruct Hby as (Ht & Hl & Hs).
  destruct (first_candidate r) as [c|].
  - destruct (cand_finishReason c) as [f|].
    + destruct (String.eqb_spec f "STOP") as [->|Hstop].
      * split; [left; reflexivity|]. split; [split; discriminate|].
        split; [discriminate|]. intros (H & _). contradiction.
      * destruct (String.eqb_spec f "MAX_TOKENS") as [->|Hmax].
        -- split; [right; left; reflexivity|]. split; [tauto|].
           split; [discriminate|]. intros (_ & H & _). contradiction.
        -- split; [tauto|]. split.
           ++ split; [intros H; contradiction|]. intros H. injection H. contradiction.
           ++ rewrite Ht. split; [|intros (_ & _ & H); exact H].
              intros H; split; [intros E; injection E; contradiction|].
              split; [intros E; injection E; contradiction|exact H].
    + split; [tauto|]. split; [split; [contradiction|discriminate]|].
      rewrite Ht. split; [split; [discriminate|split; [discriminate|exact H]]|tauto].
  - split; [tauto|]. split; [split; [contradiction|discriminate]|].
    rewrite Ht. split; [intros H; split; [discriminate|split; [discriminate|exact H]]|tauto].
Qed.

Lemma first_candidate_parts_erase (r : AgResponse) :
  first_candidate_parts (erase_thoughts r) = map erase_thought (first_candidate_parts r).
Proof.
  destruct r as [[[|c cs]|]]; try reflexivity.
  destruct c as [[ps|] fr]; reflexivity.
Qed.

Lemma first_candidate_erase (r : AgResponse) :
  option_map cand_finishReason (first_candidate (erase_thoughts r)) =
  option_map cand_finishReason (first_candidate r).
Proof. destruct r as [[[|c cs]|]]; reflexivity. Qed.

Lemma ag_part_chunks_erase (p : AgPartIn) : ag_part_chunks (erase_thought p) = ag_part_chunks p.
Proof.
  destruct p as [t [[|]|] fc]; try reflexivity.
  unfold ag_part_chunks, erase_thought. cbn [pin_thought pin_text pin_functionCall].
  destruct (opt_truthy_str t); reflexivity.
Qed.

Lemma flat_map_ag_part_chunks_erase (ps : list AgPartIn) :
  flat_map ag_part_chunks (map erase_thought ps) = flat_map ag_part_chunks ps.
Proof.
  induction ps as [|p ps IH]; [reflexivity|].
  cbn [map flat_map]. rewrite ag_part_chunks_erase, IH. reflexivity.
Qed.

Lemma ag_read_loop_ext (p1 p2 : string -> option AgResponse) :
  (forall line, ag_stream_line p1 line = ag_stream_line p2 line) ->
  forall buffer reads, ag_read_loop p1 buffer reads = ag_read_loop p2 buffer reads.
Proof.
  intros H buffer reads. revert buffer. induction reads as [|v reads IH]; intros buffer;
    [reflexivity|].
  cbn [ag_read_loop]. destruct (take_complete_lines (String.append buffer v)) as [lines b'].
  rewrite IH. f_equal. apply flat_map_ext. exact H.
Qed.

(** Thought text never reaches the client: the stream written for an
    upstream whose thought parts ([thought: true]) have their text removed is
    the stream written for the original upstream, and so is the
    non-streaming response. *)
Theorem thought_text_never_reaches_client (parse_ag : string -> option AgResponse)
  (reads : list string) (r : AgResponse) (u : option AgUsage) (model : string) :
  streamAntigravityResponse (fun d => option_map erase_thoughts (parse_ag d)) reads =
    streamAntigravityResponse parse_ag reads /\
  parseAntigravityResponse (mkAntigravityResponse (erase_thoughts r) u) model =
    parseAntigravityResponse (mkAntigravityResponse r u) model.
Proof.
  split.
  - unfold streamAntigravityResponse. f_equal. f_equal. apply ag_read_loop_ext.
    intros line. unfold ag_stream_line.
    destruct (sse_data line) as [data|]; [|reflexivity].
    destruct (String.eqb data "" || String.eqb data "[DONE]"); [reflexivity|].
    destruct (parse_ag data) as [parsed|]; [|reflexivity]. cbn [option_map].
    rewrite first_candidate_parts_erase. apply flat_map_ag_part_chunks_erase.
  - unfold parseAntigravityResponse. cbn [agr_response agr_usageMetadata].
    rewrite first_candidate_parts_erase, !fold_ag_response_part, flat_map_ag_part_chunks_erase.
    pose proof (first_candidate_erase r) as Hf.
    destruct (first_candidate (erase_thoughts r)) as [c1|], (first_candidate r) as [c2|];
      cbn [option_map] in Hf; try discriminate; [|reflexivity].
    injection Hf as Hf. rewrite Hf. reflexivity.
Qed.

(** ** Codex stream: the stop chunk *)

Lemma codex_stream_lines_shape (parse_event : string -> option CodexEvent)
  (lines : list string) (last : string) :
  exists xs,
    (snd (codex_stream_lines parse_event last lines) <> None /\
     fst (codex_stream_lines parse_event last lines) = map content_chunk xs) \/
    (snd (codex_stream_lines parse_event last lines) = None /\
     fst (codex_stream_lines parse_event last lines) = map content_chunk xs ++ [stop_chunk]).
Proof.
  revert last. induction lines as [|line lines IH]; intros last.
  - exists []. left. split; [discriminate|reflexivity].
  - cbn [codex_stream_lines].
    destruct (sse_data line) as [data|]; [|apply IH].
    destruct (String.eqb data "[DONE]"); [exists []; right; split; reflexivity|].
    destruct (parse_event data) as [ev|]; [|apply IH].
    destruct (codex_stream_event last ev) as [content last'].
    destruct (IH last') as [xs Hxs].
    destruct (codex_stream_lines parse_event last' lines) as [out k]. cbn [fst snd] in Hxs.
    destruct content as [c|]; cbn [fst snd].
    + exists (c :: xs). destruct Hxs as [[Hk ->]|[Hk ->]]; [left|right]; split; auto.
    + exists xs. exact Hxs.
Qed.

Lemma codex_read_loop_shape (parse_event : string -> option CodexEvent)
  (reads : list string) (buffer last : string) :
  exists xs,
    codex_read_loop parse_event buffer last reads = map content_chunk xs \/
    codex_read_loop parse_event buffer last reads = map content_chunk xs ++ [stop_chunk].
Proof.
  revert buffer last. induction reads as [|v reads IH]; intros buffer last.
  - exists []. left. reflexivity.
  - cbn [codex_read_loop].
    destruct (take_complete_lines (String.append buffer v)) as [lines b'].
    destruct (codex_stream_lines_shape parse_event lines last) as [xs Hxs].
    destruct (codex_stream_lines parse_event last lines) as [out k]. cbn [fst snd] in Hxs.
    destruct k as [last'|].
    + destruct Hxs as [[_ ->]|[Hk _]]; [|discriminate].
      destruct (IH b' last') as [ys [-> | ->]]; exists (xs ++ ys); [left|right];
        rewrite map_app; [reflexivity|apply app_assoc].
    + destruct Hxs as [[Hk _]|[_ ->]]; [contradiction|]. exists xs. right. reflexivity.
Qed.

(** [parseCodexStream] yields content chunks only, and at most one stop
    chunk, as its last chunk: the generator returns as soon as it has
    yielded it on [[DONE]], and nothing else it yields carries a
    [finish_reason]. *)
Theorem parseCodexStream_stop_last (parse_event : string -> option CodexEvent)
  (reads : list string) :
  exists xs,
    parseCodexStream parse_event reads = map content_chunk xs \/
    parseCodexStream parse_event reads = map content_chunk xs ++ [stop_chunk].
Proof. apply codex_read_loop_shape. Qed.

(** ** Codex full response: which text is kept *)

Lemma codex_response_event_output_text (c t : string) :
  codex_response_event c (output_text_event t) = if String.eqb t "" then c else t.
Proof.
  unfold codex_response_event, output_text_event. cbn [ev_output ev_message_parts fold_left].
  unfold response_output_item. cbn [oi_type oi_content]. rewrite String.eqb_refl.
  cbn [fold_left]. unfold response_output_text. cbn [oc_type oc_text].
  rewrite String.eqb_refl. unfold opt_truthy_str.
  destruct (String.eqb t "") eqn:Et.
  - destruct (String.eqb c "") eqn:E; [|reflexivity].
    apply String.eqb_eq in E. subst c. reflexivity.
  - rewrite Et. reflexivity.
Qed.

Lemma codex_response_event_conversation (c t : string) :
  codex_response_event c (conversation_event t) = if String.eqb c "" then t else c.
Proof. reflexivity. Qed.

Lemma sse_data_prefix (line data : string) :
  sse_data line = Some data -> String.prefix "data: " line = true.
Proof. unfold sse_data. destruct (String.prefix "data: " line); congruence. Qed.

Lemma fold_codex_response_line_events (parse_event : string -> option CodexEvent)
  (mk : string -> CodexEvent) (lines ts : list string) (c : string) :
  Forall2 (fun l t => line_event parse_event l (mk t)) lines ts ->
  fold_left (codex_response_line parse_event) lines c =
  fold_left (fun acc t => codex_response_event acc (mk t)) ts c.
Proof.
  intros H. revert c. induction H as [|l t lines ts Hl Hrest IH]; intros c; [reflexivity|].
  cbn [fold_left]. rewrite <- IH. f_equal.
  destruct Hl as (data & Hd & Hdone & Hp). unfold codex_response_line.
  rewrite Hd. destruct (String.eqb_spec data "[DONE]"); [contradiction|]. rewrite Hp.
  reflexivity.
Qed.

Lemma filter_Forall_true {A : Type} (f : A -> bool) (l : list A) :
  Forall (fun x => f x = true) l -> filter f l = l.
Proof. induction 1 as [|x l Hx _ IH]; [reflexivity|]. cbn [filter]. rewrite Hx, IH. reflexivity. Qed.

Lemma parseCodexResponse_body (parse_event : string -> option CodexEvent)
  (mk : string -> CodexEvent) (lines ts : list string) (model : string) :
  Forall (fun l => no_newline l = true) lines ->
  Forall2 (fun l t => line_event parse_event l (mk t)) lines ts ->
  message_content (parseCodexResponse parse_event (stream_body lines) model) =
  opt_truthy_str (Some (fold_left (fun acc t => codex_response_event acc (mk t)) ts "")).
Proof.
  intros Hnl Hev. unfold parseCodexResponse. cbn [message_content].
  rewrite split_lines_body by exact Hnl. rewrite filter_app. cbn [filter].
  replace (String.prefix "data: " "") with false by reflexivity. rewrite app_nil_r.
  rewrite filter_Forall_true.
  - rewrite (fold_codex_response_line_events parse_event mk lines ts "" Hev). reflexivity.
  - clear Hnl. induction Hev as [|l t lines ts Hl Hrest IH]; constructor; [|exact IH].
    destruct Hl as (data & Hd & _). exact (sse_data_prefix l data Hd).
Qed.

Lemma fold_left_pointwise {A B} (f g : A -> B -> A) (l : list B) (a : A) :
  (forall x y, f x y = g x y) -> fold_left f l a = fold_left g l a.
Proof. intros H. revert a. induction l as [|y l IH]; intros a; [reflexivity|]. cbn. rewrite H. apply IH. Qed.

Lemma fold_conversation_nonempty (ts : list string) (c : string) :
  c <> "" -> fold_left (fun acc t => if String.eqb acc "" then t else acc) ts c = c.
Proof.
  revert c. induction ts as [|t ts IH]; intros c Hc; [reflexivity|].
  cbn [fold_left]. destruct (String.eqb_spec c ""); [contradiction|]. apply IH, Hc.
Qed.

Lemma fold_conversation_first (ts : list string) :
  fold_left (fun acc t => if String.eqb acc "" then t else acc) ts "" = first_nonempty ts.
Proof.
  induction ts as [|t ts IH]; [reflexivity|].
  cbn [fold_left]. rewrite String.eqb_refl. unfold first_nonempty. cbn [filter].
  unfold nonempty_str at 1. destruct (String.eqb_spec t "") as [->|Ht]; cbn [negb].
  - exact IH.
  - apply fold_conversation_nonempty, Ht.
Qed.

(** [parseCodexResponse] on a body of [data:] lines (no line holding a
    newline) whose events all carry a single [output_text] text answers with
    the last non-empty text ([null] if none); when the events all use the
    conversation format [message.content.parts], it answers with the first
    non-empty text instead, since the fallback is only read while the
    content is still empty. *)
Theorem parseCodexResponse_text_choice (parse_event : string -> option CodexEvent)
  (lines ts : list string) (model : string)
  (Hnl : Forall (fun l => no_newline l = true) lines) :
  (Forall2 (fun l t => line_event parse_event l (output_text_event t)) lines ts ->
   message_content (parseCodexResponse parse_event (stream_body lines) model) =
   opt_truthy_str (Some (last_nonempty ts))) /\
  (Forall2 (fun l t => line_event parse_event l (conversation_event t)) lines ts ->
   message_content (parseCodexResponse parse_event (stream_body lines) model) =
   opt_truthy_str (Some (first_nonempty ts))).
Proof.
  split; intros Hev; rewrite (parseCodexResponse_body parse_event _ lines ts model Hnl Hev).
  - f_equal. f_equal. unfold last_nonempty. apply fold_left_pointwise.
    intros acc t. apply codex_response_event_output_text.
  - f_equal. f_equal. rewrite <- fold_conversation_first. apply fold_left_pointwise.
    intros acc t. apply codex_response_event_conversation.
Qed.

Lemma parseCodexResponse_text_choice_witness :
  let pe := fun d : string => Some (conversation_event d) in
  let lines := ["data: a"; "data: b"] in
  Forall (fun l => no_newline l = true) lines /\
  Forall2 (fun l t => line_event pe l (conversation_event t)) lines ["a"; "b"] /\
  message_content (parseCodexResponse pe (stream_body lines) "gpt") = Some "a".
Proof.
  cbv zeta.
  assert (Hnl : Forall (fun l => no_newline l = true) ["data: a"; "data: b"])
    by (repeat constructor).
  assert (Hev : Forall2 (fun l t => line_event (fun d => Some (conversation_event d)) l
                                      (conversation_event t)) ["data: a"; "data: b"] ["a"; "b"]).
  { repeat constructor; eexists; (split; [vm_compute; reflexivity|]);
      (split; [discriminate|reflexivity]). }
  split; [exact Hnl|]. split; [exact Hev|].
  exact (proj2 (parseCodexResponse_text_choice _ _ _ "gpt" Hnl) Hev).
Defined.

(** ** Gateway: what one request does to the pool *)

Lemma index_of_bump_other (p q : Provider) (st : PoolState) :
  q <> p -> index_of q (bump_index p st) = index_of q st.
Proof. destruct p, q; intros H; try reflexivity; contradiction. Qed.

(** What one request does to the gateway's pool: the account lists never
    change; when [MODELS[req.model]] is [undefined] nothing changes and no
    upstream call is made; otherwise (a registry model, or a member every
    object inherits, which goes to the Codex pool) only the cursor of the
    selected pool moves, by the number [r] of rotations, and the request
    made [r] or [r + 1] upstream calls (one per rotation, plus one for the
    final attempt unless that attempt ended with a rotation back to the same
    account). *)
Theorem handleChatCompletion_pool_invariant
  (upstream : nat -> ProviderAccount -> UpstreamResult) (ag_body_error : string -> option string)
  (fuel : nat) (req : APIRequest)
  (st : PoolState) (calls : nat) (resp : HttpResponse) (st' : PoolState) (calls' : nat)
  (H : handleChatCompletion upstream ag_body_error fuel req st calls = Some (resp, st', calls')) :
  (forall q, accounts_of q st' = accounts_of q st) /\
  match models_get (req_model req) with
  | None => st' = st /\ calls' = calls
  | Some e =>
      exists r, index_of (entry_pool e) st' = (index_of (entry_pool e) st + r)%nat /\
        (forall q, q <> entry_pool e -> index_of q st' = index_of q st) /\
        (calls' = (calls + r)%nat \/ calls' = S (calls + r))
  end.
Proof.
  revert st calls H. induction fuel as [|fuel IH]; intros st calls H; [discriminate|].
  cbn [handleChatCompletion] in H.
  destruct (models_get (req_model req)) as [e|] eqn:Hm.
  2: { injection H as <- <- <-. split; [reflexivity|split; reflexivity]. }
  cbv zeta in H. set (p := entry_pool e) in *.
  destruct (getNextAccount p st) as [account|].
  2: { injection H as <- <- <-. split; [reflexivity|].
       exists 0%nat. split; [lia|]. split; [reflexivity|left; lia]. }
  assert (Hnone : forall resp0, Some (resp0, st, S calls) = Some (resp, st', calls') ->
    (forall q, accounts_of q st' = accounts_of q st) /\
    exists r, index_of p st' = (index_of p st + r)%nat /\
      (forall q, q <> p -> index_of q st' = index_of q st) /\
      (calls' = (calls + r)%nat \/ calls' = S (calls + r))).
  { intros resp0 E. injection E as _ <- <-. split; [reflexivity|].
    exists 0%nat. split; [lia|]. split; [reflexivity|right; lia]. }
  assert (Hrot : forall resp0, Some (resp0, bump_index p st, S calls) =
                               Some (resp, st', calls') ->
    (forall q, accounts_of q st' = accounts_of q st) /\
    exists r, index_of p st' = (index_of p st + r)%nat /\
      (forall q, q <> p -> index_of q st' = index_of q st) /\
      (calls' = (calls + r)%nat \/ calls' = S (calls + r))).
  { intros resp0 E. injection E as _ <- <-. split; [intros q; apply accounts_of_bump|].
    exists 1%nat. rewrite index_of_bump. split; [lia|].
    split; [intros q Hq; apply index_of_bump_other, Hq|left; lia]. }
  destruct (upstream calls account) as [status text|err]; [|exact (Hnone _ H)].
  destruct (response_ok status); [exact (Hnone _ H)|].
  destruct (status =? 429)%Z; [|exact (Hnone _ H)].
  unfold rotateAccount in H.
  destruct (getNextAccount p (bump_index p st)) as [na|]; [|exact (Hrot _ H)].
  destruct (negb (String.eqb (acc_id na) (acc_id account))); [|exact (Hrot _ H)].
  destruct (IH _ _ H) as [Hacc Hidx]. try rewrite Hm in Hidx. try fold p in Hidx.
  destruct Hidx as (r & Hr & Hq & Hc).
  split; [intros q; rewrite Hacc; apply accounts_of_bump|].
  exists (S r). rewrite Hr, index_of_bump. split; [lia|].
  split; [intros q Hne; rewrite Hq, index_of_bump_other by exact Hne; reflexivity|lia].
Qed.

Lemma handleChatCompletion_pool_invariant_witness :
  handleChatCompletion upstream_429_429_200 demo_ag_body_error 10 demo_tostring_req
    demo_codex_pool 0 =
    Some (sendError 429 "rate limited", mkPool [] [mkAccount "cx-1" "c@example.com"] 0 1, 1%nat) /\
  ((forall q, accounts_of q (mkPool [] [mkAccount "cx-1" "c@example.com"] 0 1) =
              accounts_of q demo_codex_pool) /\
   match models_get (req_model demo_tostring_req) with
   | None => mkPool [] [mkAccount "cx-1" "c@example.com"] 0 1 = demo_codex_pool /\ 1%nat = 0%nat
   | Some e =>
       exists r, index_of (entry_pool e) (mkPool [] [mkAccount "cx-1" "c@example.com"] 0 1) =
                   (index_of (entry_pool e) demo_codex_pool + r)%nat /\
         (forall q, q <> entry_pool e ->
            index_of q (mkPool [] [mkAccount "cx-1" "c@example.com"] 0 1) =
            index_of q demo_codex_pool) /\
         (1%nat = (0 + r)%nat \/ 1%nat = S (0 + r))
   end).
Proof.
  split; [reflexivity|].
  apply (handleChatCompletion_pool_invariant upstream_429_429_200 demo_ag_body_error 10
           demo_tostring_req demo_codex_pool 0 (sendError 429 "rate limited")).
  reflexivity.
Defined.

(** ** Setup CLIs: merging [custom_models] and numbering [customModels] *)

Lemma substring_after_prefix (a s : string) (n m : nat) :
  String.substring (String.length a + n) m (String.append a s) = String.substring n m s.
Proof. induction a as [|c a IH]; [reflexivity|]. exact IH. Qed.

Lemma substring_prefix (b c : string) :
  String.substring 0 (String.length b) (String.append b c) = b.
Proof. induction b as [|x b IH]; [destruct c; reflexivity|]. cbn. rewrite IH. reflexivity. Qed.

Lemma string_includes_middle (a b c : string) :
  b <> "" -> string_includes (String.append a (String.append b c)) b = true.
Proof.
  intros Hb. unfold string_includes.
  destruct (String.index 0 b (String.append a (String.append b c))) eqn:E; [reflexivity|].
  exfalso. apply (String.index_correct3 0 (String.length a) b _ E Hb (Nat.le_0_l _)).
  rewrite <- (Nat.add_0_r (String.length a)), substring_after_prefix.
  apply substring_prefix.
Qed.

Lemma generated_not_foreign (port : string) :
  filter (SetupFactoryConfig.foreign_model port) (SetupFactoryConfig.generateModelConfigs port) = [].
Proof.
  unfold SetupFactoryConfig.generateModelConfigs.
  generalize (filter (fun m => match mc_provider m with Antigravity => true | Codex => false end)
                (map snd MODELS)) as ms.
  induction ms as [|m ms IH]; [reflexivity|]. cbn [map filter].
  unfold SetupFactoryConfig.foreign_model at 1. cbn [SetupFactoryConfig.base_url].
  replace (String.append "http://127.0.0.1:" (String.append port "/v1"))
    with (String.append "http://" (String.append (String.append "127.0.0.1:" port) "/v1"))
    by (rewrite <- string_append_assoc; reflexivity).
  rewrite string_includes_middle by discriminate. rewrite andb_false_r. exact IH.
Qed.

(** Running the setup CLI again leaves [custom_models] as it is: the
    entries it wrote itself (their [base_url] holds ["127.0.0.1:" + port])
    are dropped before it appends them again, and the kept entries of other
    origins stay in front, in their order. *)
Theorem merge_custom_models_idempotent (port : string)
  (custom_models : option (list SetupFactoryConfig.CustomModel)) :
  SetupFactoryConfig.merge_custom_models port
    (Some (SetupFactoryConfig.merge_custom_models port custom_models)) =
  SetupFactoryConfig.merge_custom_models port custom_models.
Proof.
  unfold SetupFactoryConfig.merge_custom_models at 1. cbn iota.
  unfold SetupFactoryConfig.merge_custom_models.
  rewrite filter_app, filter_idem, generated_not_foreign, app_nil_r. reflexivity.
Qed.

Lemma list_ascii_of_string_append (a b : string) :
  list_ascii_of_string (String.append a b) = list_ascii_of_string a ++ list_ascii_of_string b.
Proof. induction a as [|c a IH]; [reflexivity|]. cbn. rewrite IH. reflexivity. Qed.

Lemma app_sep_suffix (x1 x2 d1 d2 : list ascii) (s : ascii) :
  ~ In s d1 -> ~ In s d2 -> x1 ++ s :: d1 = x2 ++ s :: d2 -> d1 = d2.
Proof.
  revert x2. induction x1 as [|a x1 IH]; intros x2 H1 H2 E.
  - destruct x2 as [|b x2]; cbn in E; [congruence|].
    injection E as -> E. exfalso. apply H1. rewrite E. apply in_elt.
  - destruct x2 as [|b x2]; cbn in E.
    + injection E as -> E. exfalso. apply H2. rewrite <- E. apply in_elt.
    + injection E as _ E. exact (IH x2 H1 H2 E).
Qed.

Lemma to_uint_not_nil (n : nat) : Nat.to_uint n <> Decimal.Nil.
Proof.
  rewrite <- (DecimalNat.Unsigned.of_to n), DecimalNat.Unsigned.to_of.
  apply DecimalFacts.unorm_nonnil.
Qed.

Lemma show_nat_inj (n n' : nat) : show_nat n = show_nat n' -> n = n'.
Proof.
  unfold show_nat. intros E. apply DecimalNat.Unsigned.to_uint_inj.
  pose proof (NilZero.usu _ (to_uint_not_nil n)) as H1.
  pose proof (NilZero.usu _ (to_uint_not_nil n')) as H2.
  rewrite E, H2 in H1. congruence.
Qed.

Lemma string_of_uint_no_dash (d : Decimal.uint) :
  ~ In "-"%char (list_ascii_of_string (NilEmpty.string_of_uint d)).
Proof.
  induction d as [|d IH|d IH|d IH|d IH|d IH|d IH|d IH|d IH|d IH|d IH];
    cbn [NilEmpty.string_of_uint list_ascii_of_string]; [intros []|..];
    intros [H|H]; [discriminate|exact (IH H)|discriminate|exact (IH H)|discriminate|exact (IH H)
    |discriminate|exact (IH H)|discriminate|exact (IH H)|discriminate|exact (IH H)
    |discriminate|exact (IH H)|discriminate|exact (IH H)|discriminate|exact (IH H)
    |discriminate|exact (IH H)].
Qed.

Lemma show_nat_no_dash (n : nat) : ~ In "-"%char (list_ascii_of_string (show_nat n)).
Proof.
  unfold show_nat. destruct (Nat.to_uint n) as [|d|d|d|d|d|d|d|d|d|d] eqn:E.
  1: exfalso; exact (to_uint_not_nil n E).
  all: apply string_of_uint_no_dash.
Qed.

Lemma generate_from_shape (port : string) (i : nat) (models : list ModelConfig) (c : SetupFactory.CustomModel) :
  In c (SetupFactory.generate_from port i models) ->
  (i <= SetupFactory.index c)%nat /\
  exists pre, list_ascii_of_string (SetupFactory.id c) =
              pre ++ "-"%char :: list_ascii_of_string (show_nat (SetupFactory.index c)).
Proof.
  revert i. induction models as [|m ms IH]; intros i Hin; [destruct Hin|].
  destruct Hin as [<- | Hin].
  - split; [cbn; lia|]. cbn [SetupFactory.id SetupFactory.index].
    eexists. rewrite !list_ascii_of_string_append, app_assoc. reflexivity.
  - destruct (IH (S i) Hin) as [Hle Hpre]. split; [lia|exact Hpre].
Qed.

Lemma generate_from_id_index (port : string) (i : nat) (models : list ModelConfig)
  (c1 c2 : SetupFactory.CustomModel) :
  In c1 (SetupFactory.generate_from port i models) ->
  In c2 (SetupFactory.generate_from port i models) ->
  SetupFactory.id c1 = SetupFactory.id c2 -> SetupFactory.index c1 = SetupFactory.index c2.
Proof.
  intros H1 H2 E.
  destruct (generate_from_shape port i models c1 H1) as [_ [p1 E1]].
  destruct (generate_from_shape port i models c2 H2) as [_ [p2 E2]].
  apply show_nat_inj.
  rewrite <- (string_of_list_ascii_of_string (show_nat (SetupFactory.index c1))),
          <- (string_of_list_ascii_of_string (show_nat (SetupFactory.index c2))).
  f_equal. apply (app_sep_suffix p1 p2 _ _ "-"%char (show_nat_no_dash _) (show_nat_no_dash _)).
  rewrite <- E1, <- E2, E. reflexivity.
Qed.

Lemma generate_from_indices (port : string) (i : nat) (models : list ModelConfig) :
  map SetupFactory.index (SetupFactory.generate_from port i models) = seq i (List.length models).
Proof.
  revert i. induction models as [|m ms IH]; intros i; [reflexivity|].
  cbn [SetupFactory.generate_from map List.length seq SetupFactory.index]. rewrite IH. reflexivity.
Qed.

(** The entries [generateModelConfigs] writes into [customModels] are
    numbered [0, 1, ...] in list order, and their ids
    [custom:<displayName with every non-alphanumeric character replaced by
    "-">-<index>] are pairwise distinct, whatever the display names (two
    names that sanitize to the same text still get different ids). *)
Theorem generateModelConfigs_ids_distinct (models : list ModelConfig) (port : string) :
  map SetupFactory.index (SetupFactory.generateModelConfigs models port) =
    seq 0 (List.length models) /\
  NoDup (map SetupFactory.id (SetupFactory.generateModelConfigs models port)).
Proof.
  split; [apply generate_from_indices|].
  unfold SetupFactory.generateModelConfigs. generalize 0%nat as i.
  induction models as [|m ms IH]; intros i; [constructor|].
  cbn [SetupFactory.generate_from map]. constructor; [|apply IH].
  intros Hin. apply in_map_iff in Hin as (c & Hc & Hin).
  set (c0 := SetupFactory.mkCustomModel _ _ i _ _ _ _ _ _) in Hc.
  assert (Hi : SetupFactory.index c = SetupFactory.index c0).
  { apply (generate_from_id_index port i (m :: ms)); [right; exact Hin|left; reflexivity|exact Hc]. }
  destruct (generate_from_shape port (S i) ms c Hin) as [Hle _].
  cbn [c0 SetupFactory.index] in Hi. lia.
Qed.


(** ** Antigravity adapter: the tools of the request *)

(** The tools of the upstream Antigravity request: absent (and then no
    [toolConfig] either) exactly when the client sent no tool of type
    ["function"]; otherwise one declaration per function tool, in order, with
    its name and description, and a parameters schema of the cleaned shape. *)
Theorem callAntigravity_tools (json_parse : string -> option json) (projectId : option string)
  (model : ModelConfig) (messages : list ChatMessage) (tools : option (list Tool))
  (options : CallOptions) :
  let fts := filter (fun t => String.eqb (tool_type t) "function")
               (match tools with Some ts => ts | None => [] end) in
  let r := callAntigravity json_parse projectId model messages tools options in
  match ar_tools r with
  | None => fts = [] /\ ar_toolConfig_mode r = None
  | Some fds =>
      fds <> [] /\
      map (fun fd => (fd_name fd, fd_description fd)) fds =
        map (fun t => (fn_name t, fn_description t)) fts /\
      Forall (fun fd => match fd_parameters fd with
                        | Some p => schema_clean p = true
                        | None => True
                        end) fds
  end.
Proof.
  cbv zeta. unfold callAntigravity.
  destruct (convertMessages json_parse messages) as [contents sys]. cbn [ar_tools ar_toolConfig_mode].
  unfold convertTools.
  destruct tools as [[|t ts]|]; [split; reflexivity| |split; reflexivity].
  set (fts := filter (fun t => String.eqb (tool_type t) "function") (t :: ts)).
  destruct fts as [|f fs] eqn:E; [split; reflexivity|].
  cbn [map]. split; [discriminate|]. split.
  - rewrite map_map. reflexivity.
  - apply Forall_forall. intros fd Hin.
    change (In fd (map (fun t => mkFunctionDeclaration (fn_name t) (fn_description t)
                          (option_map cleanSchema (fn_parameters t))) (f :: fs))) in Hin.
    apply in_map_iff in Hin as (t' & <- & _).
    cbn [fd_parameters]. destruct (fn_parameters t') as [p|]; [apply cleanSchema_clean_shape|exact I].
Qed.

(** ** Antigravity adapter: image parts *)

Lemma string_length_append (a b : string) :
  String.length (String.append a b) = (String.length a + String.length b)%nat.
Proof. induction a as [|c a IH]; cbn; [reflexivity|rewrite IH; reflexivity]. Qed.

Lemma prefix_append (a b : string) : String.prefix a (String.append a b) = true.
Proof.
  induction a as [|c a IH]; [destruct b; reflexivity|].
  cbn. destruct (Ascii.ascii_dec c c) as [_|n]; [exact IH|contradiction].
Qed.

Lemma prefix_inv (a s : string) : String.prefix a s = true -> exists b, s = String.append a b.
Proof.
  revert s. induction a as [|c a IH]; intros s H; [exists s; reflexivity|].
  destruct s as [|d s]; [discriminate|]. cbn in H.
  destruct (Ascii.ascii_dec c d) as [<-|_]; [|discriminate].
  destruct (IH s H) as [b ->]. exists b. reflexivity.
Qed.

Lemma slice_after (a b : string) :
  substring (String.length a) (String.length (String.append a b) - String.length a)
    (String.append a b) = b.
Proof.
  rewrite string_length_append. replace (String.length a + String.length b - String.length a)%nat
    with (String.length b) by lia.
  rewrite <- (Nat.add_0_r (String.length a)), substring_after_prefix.
  pose proof (substring_prefix b "") as H. rewrite string_append_empty_r in H. exact H.
Qed.

Lemma slice_after_n (a b : string) (n : nat) :
  n = String.length a ->
  substring n (String.length (String.append a b) - n) (String.append a b) = b.
Proof. intros ->. apply slice_after. Qed.

Lemma split_at_semicolon_spec (r : string) :
  r = String.append (fst (split_at_semicolon r)) (snd (split_at_semicolon r)) /\
  ~ In ";"%char (list_ascii_of_string (fst (split_at_semicolon r))) /\
  (snd (split_at_semicolon r) = "" \/ exists r', snd (split_at_semicolon r) = String ";" r').
Proof.
  induction r as [|c r IH]; [split; [reflexivity|split; [intros []|left; reflexivity]]|].
  cbn [split_at_semicolon].
  destruct (Ascii.eqb_spec c ";") as [->|Hc].
  - cbn [fst snd]. split; [reflexivity|split; [intros []|right; exists r; reflexivity]].
  - destruct (split_at_semicolon r) as [a b]. cbn [fst snd] in IH |- *.
    destruct IH as (IH1 & IH2 & IH3). split; [rewrite IH1 at 1; reflexivity|].
    split; [|exact IH3]. cbn. intros [H|H]; [congruence|contradiction].
Qed.

Lemma split_at_semicolon_app (m r : string) :
  ~ In ";"%char (list_ascii_of_string m) ->
  split_at_semicolon (String.append m (String ";" r)) = (m, String ";" r).
Proof.
  induction m as [|c m IH]; intros H; [reflexivity|].
  cbn [String.append split_at_semicolon].
  destruct (Ascii.eqb_spec c ";") as [->|Hc]; [exfalso; apply H; left; reflexivity|].
  rewrite IH; [reflexivity|]. intros Hin. apply H. right. exact Hin.
Qed.

Lemma match_data_url_iff (url mime data : string) :
  match_data_url url = Some (mime, data) <->
  url = String.append "data:" (String.append mime (String.append ";base64," data)) /\
  mime <> "" /\ ~ In ";"%char (list_ascii_of_string mime) /\
  data <> "" /\ has_line_terminator data = false.
Proof.
  unfold match_data_url. split.
  - intros H. destruct (String.prefix "data:" url) eqn:Hp; [|discriminate].
    destruct (prefix_inv _ _ Hp) as [r ->].
    rewrite (slice_after_n "data:" r 5 eq_refl) in H.
    destruct (split_at_semicolon_spec r) as (Hr & Hm & Ht).
    destruct (split_at_semicolon r) as [m t]. cbn [fst snd] in Hr, Hm, Ht.
    destruct (String.prefix ";base64," t) eqn:Hb; [|discriminate].
    destruct (prefix_inv _ _ Hb) as [d ->].
    rewrite (slice_after_n ";base64," d 8 eq_refl) in H.
    destruct (String.eqb_spec m ""), (String.eqb_spec d ""), (has_line_terminator d) eqn:Hl;
      cbn in H; try discriminate.
    injection H as <- <-. subst r. repeat split; assumption.
  - intros (-> & Hm & Hs & Hd & Hl).
    rewrite prefix_append, (slice_after_n "data:" _ 5 eq_refl).
    change (String.append ";base64," data) with (String ";" (String.append "base64," data)).
    rewrite (split_at_semicolon_app mime _ Hs).
    change (String ";" (String.append "base64," data)) with (String.append ";base64," data).
    rewrite prefix_append, (slice_after_n ";base64," data 8 eq_refl).
    destruct (String.eqb_spec mime ""); [contradiction|].
    destruct (String.eqb_spec data ""); [contradiction|]. rewrite Hl. reflexivity.
Qed.

(** An [image_url] content part becomes one [inlineData] part exactly when
    its URL is [data:<mimeType>;base64,<data>] with a non-empty media type
    free of [;] and non-empty data free of line terminators, and then the
    part carries that media type and data; any other URL drops the part
    silently: an image part never becomes text or anything else. *)
Theorem convert_image_part (p : ContentPart) (url : string)
  (Ht : cp_type p = "image_url") (Hu : cp_image_url p = Some url) :
  (forall mime data,
     convert_content_part p = [PInlineData mime data] <->
     url = String.append "data:" (String.append mime (String.append ";base64," data)) /\
     mime <> "" /\ ~ In ";"%char (list_ascii_of_string mime) /\
     data <> "" /\ has_line_terminator data = false) /\
  (convert_content_part p = [] \/
   exists mime data, convert_content_part p = [PInlineData mime data]).
Proof.
  assert (Hc : convert_content_part p =
               match match_data_url url with
               | Some (mime, data) => [PInlineData mime data]
               | None => []
               end).
  { unfold convert_content_part. rewrite Ht, Hu. cbn -[match_data_url].
    destruct (String.prefix "data:" url) eqn:Hp; [reflexivity|].
    unfold match_data_url. rewrite Hp. reflexivity. }
  rewrite Hc. split.
  - intros mime data. rewrite <- match_data_url_iff.
    destruct (match_data_url url) as [[m d]|]; split; intros H; try discriminate;
      injection H as -> ->; reflexivity.
  - destruct (match_data_url url) as [[m d]|]; [right; exists m, d; reflexivity|left; reflexivity].
Qed.

Lemma convert_image_part_witness :
  let p := mkContentPart "image_url" None (Some "data:image/png;base64,iVBORw0K") in
  cp_type p = "image_url" /\ cp_image_url p = Some "data:image/png;base64,iVBORw0K" /\
  convert_content_part p = [PInlineData "image/png" "iVBORw0K"].
Proof.
  cbv zeta. split; [reflexivity|]. split; [reflexivity|].
  apply (proj1 (convert_image_part (mkContentPart "image_url" None (Some "data:image/png;base64,iVBORw0K"))
                  "data:image/png;base64,iVBORw0K" eq_refl eq_refl) "image/png" "iVBORw0K").
  split; [reflexivity|]. split; [discriminate|]. split; [|split; [discriminate|reflexivity]].
  cbn. intuition discriminate.
Defined.
